(** * The TypeScript handbook snippets, embedded in Rocq

    The repository is a set of annotated TypeScript files.  Each module below
    embeds the executable part of one source file: function bodies become
    Rocq functions, module-level bindings and objects become explicit state,
    [throw] becomes an abrupt completion, [console.log] appends to a console,
    and index loops run on a fuel budget (a loop that has not finished when
    the fuel is spent yields [None]). *)

From Stdlib Require Import List String Bool Floats Lia.
From stdpp Require Import base option list strings gmap.

Local Open Scope string_scope.

(** ** The JavaScript runtime the snippets run on *)

Module JS.

(** "As in JavaScript, all numbers in TypeScript are floating point
    values": [number] is IEEE 754 binary64. *)
Definition number : Type := float.

(** What a [throw] statement, or the runtime itself, can raise. *)
Inductive Exception : Type :=
| ThrownString (s : string)      (* throw "..." *)
| Error (message : string)       (* throw new Error(message) *)
| ReferenceError (name : string) (* read of an uninitialised or missing binding *)
| SyntaxError (name : string)    (* redeclaration, found when a script is instantiated *)
| TypeError (what : string).     (* property access on undefined, call of a non-function *)

(** How the evaluation of a statement or call ends. *)
Inductive Completion (A : Type) : Type :=
| Normal (a : A)
| Throw (e : Exception).
Arguments Normal {A} a.
Arguments Throw {A} e.

Definition is_normal {A} (c : Completion A) : bool :=
  match c with Normal _ => true | Throw _ => false end.

(** ToBoolean: a string is truthy when it is not empty, a number when it is
    neither +0, -0 nor NaN, and undefined (a missing optional property,
    [None]) is falsy. *)
Definition ToBoolean_string (s : string) : bool :=
  match s with EmptyString => false | String _ _ => true end.

Definition ToBoolean_number (n : number) : bool :=
  negb (PrimFloat.is_zero n || PrimFloat.is_nan n).

Definition ToBoolean_opt {A} (truthy : A -> bool) (v : option A) : bool :=
  match v with Some a => truthy a | None => false end.

(** Function bodies with loops: [None] is "fuel spent before the loop
    finished", [Some c] is the completion of the body. *)
Definition Run (A : Type) : Type := option (Completion A).

(** [while (cond) body], at most [fuel] evaluations of [cond]. *)
Fixpoint while_ {S : Type} (fuel : nat) (cond : S -> bool)
    (body : S -> Run S) (s : S) : Run S :=
  match fuel with
  | O => None
  | Datatypes.S fuel' =>
      if cond s then
        match body s with
        | Some (Normal s') => while_ fuel' cond body s'
        | stop => stop
        end
      else Some (Normal s)
  end.

(** [for (init; cond; update) body] over variables that live in the
    enclosing function's state [S] (a [var] counter). *)
Definition for_var {S : Type} (fuel : nat) (init : S -> S) (cond : S -> bool)
    (update : S -> S) (body : S -> Run S) (s : S) : Run S :=
  while_ fuel cond
    (fun s => match body s with
              | Some (Normal s') => Some (Normal (update s'))
              | stop => stop
              end)
    (init s).

(** [for (let i = init; cond; update) body]: the counter is a fresh binding
    of the loop, next to (and possibly shadowing a name of) the enclosing
    state [S]; it is gone when the loop ends. *)
Definition for_let {S C : Type} (fuel : nat) (init : C) (cond : S -> C -> bool)
    (update : C -> C) (body : S -> C -> Run S) (s : S) : Run S :=
  match
    while_ fuel (fun si => cond (fst si) (snd si))
      (fun si => match body (fst si) (snd si) with
                 | Some (Normal s') => Some (Normal (s', update (snd si)))
                 | Some (Throw e) => Some (Throw e)
                 | None => None
                 end)
      (s, init)
  with
  | Some (Normal si) => Some (Normal (fst si))
  | Some (Throw e) => Some (Throw e)
  | None => None
  end.

(** [row[i]] used as a number: an index past the end reads undefined, and
    undefined converts to NaN in an addition. *)
Definition number_at (row : list number) (i : nat) : number :=
  match row !! i with Some x => x | None => PrimFloat.nan end.

(** *** Values, the console, timers *)

(** The values that reach a module-level binding or the console. *)
#[local] Unset Elimination Schemes.
Inductive Value : Type :=
| VUndefined
| VNull
| VNumber (n : number)
| VString (s : string)
| VBoolean (b : bool)
| VArray (elements : list Value)
| VObject (properties : list (string * Value))
| VFunction (name : string).  (* a function or class declaration, by name *)
#[local] Set Elimination Schemes.
Arguments VNumber n%_float.

(** The own property [name] of an object with these [properties]; a missing
    property reads undefined. *)
Definition own_property (name : string) (properties : list (string * Value)) : Value :=
  match List.find (fun p => String.eqb (fst p) name) properties with
  | Some p => snd p
  | None => VUndefined
  end.

(** [o.label].  No built-in prototype has a property of that name: on an
    object it is the own property, or undefined; on a number, a string, a
    boolean, an array or a function it is undefined; undefined and null have
    no properties, and reading one throws a TypeError. *)
Definition label_of (o : Value) : Completion Value :=
  match o with
  | VUndefined | VNull => Throw (TypeError "label")
  | VObject properties => Normal (own_property "label" properties)
  | VNumber _ | VString _ | VBoolean _ | VArray _ | VFunction _ => Normal VUndefined
  end.

(** The function expressions handed to the runtime, with what they capture:
    [function() { console.log(i); }] and its [i]. *)
Inductive Closure : Type :=
| Closure_log (captured : Value).

Record Timer : Type := mkTimer { delay : number; callback : Closure }.

(** The world a snippet runs in: the console, the timers that are pending,
    and the snippet's own state. *)
Record World (S : Type) : Type := mkWorld {
  console : list Value;
  timers : list Timer;
  store : S
}.
Arguments mkWorld {S} console timers store.
Arguments console {S} w.
Arguments timers {S} w.
Arguments store {S} w.

Definition set_store {S} (f : S -> S) (w : World S) : World S :=
  mkWorld (console w) (timers w) (f (store w)).

(** Effectful code: the world goes in, and a completion comes out with the
    world as the code left it (also when it throws). *)
Definition Eff (S A : Type) : Type := World S -> Completion A * World S.

#[global] Instance Eff_ret {S} : MRet (Eff S) :=
  fun A a w => (Normal a, w).
#[global] Instance Eff_bind {S} : MBind (Eff S) :=
  fun A B k m w =>
    match m w with
    | (Normal a, w') => k a w'
    | (Throw e, w') => (Throw e, w')
    end.

Definition throw {S A} (e : Exception) : Eff S A :=
  fun w => (Throw e, w).

(** An expression that touches nothing of the world, and may throw. *)
Definition complete {S A} (c : Completion A) : Eff S A :=
  fun w => (c, w).

(** try { body } catch (e) { handler } *)
Definition try_catch {S A} (body : Eff S A) (handler : Exception -> Eff S A) : Eff S A :=
  fun w =>
    match body w with
    | (Normal a, w') => (Normal a, w')
    | (Throw e, w') => handler e w'
    end.

Definition get_store {S} : Eff S S :=
  fun w => (Normal (store w), w).
Definition modify_store {S} (f : S -> S) : Eff S unit :=
  fun w => (Normal tt, set_store f w).

(** console.log(v) *)
Definition console_log {S} (v : Value) : Eff S unit :=
  fun w => (Normal tt, mkWorld (console w ++ [v])%list (timers w) (store w)).

(** Pending timers are kept in the order they will fire: by delay, and in
    the order of the calls among equal delays.  (All calls of one run of a
    script are taken to happen at the same instant.) *)
Fixpoint enqueue (t : Timer) (pending : list Timer) : list Timer :=
  match pending with
  | [] => [t]
  | t' :: rest =>
      if PrimFloat.ltb (delay t) (delay t') then t :: pending
      else t' :: enqueue t rest
  end.

(** setTimeout(callback, delay): nothing runs now. *)
Definition setTimeout {S} (f : Closure) (ms : number) : Eff S unit :=
  fun w => (Normal tt, mkWorld (console w) (enqueue (mkTimer ms f) (timers w)) (store w)).

Definition call_closure {S} (f : Closure) : Eff S unit :=
  match f with Closure_log v => console_log v end.

(** The event loop, once the script has run to its end: each pending
    callback runs to completion before the next one starts. *)
Fixpoint run_callbacks {S} (pending : list Timer) : Eff S unit :=
  match pending with
  | [] => mret tt
  | t :: rest => call_closure (callback t) ;; run_callbacks rest
  end.

Definition event_loop {S} : Eff S unit :=
  fun w => run_callbacks (timers w) (mkWorld (console w) [] (store w)).

(** *** Scripts and the global scope

    None of the source files has an import or an export, so each is a
    script: its top-level [let], [const] and [class] names are lexical
    bindings of the one global scope, its top-level [var] and [function]
    names are properties of the global object. *)

Inductive Binding : Type :=
| Uninitialized            (* declared, in its temporal dead zone *)
| Initialized (v : Value).

Record Realm : Type := mkRealm {
  lexical : gmap string Binding;
  object : gmap string Value
}.

Definition empty_realm : Realm := mkRealm ∅ ∅.
Definition fresh_world : World Realm := mkWorld [] [] empty_realm.

Definition lexically_declared (r : Realm) (name : string) : bool :=
  bool_decide (is_Some (lexical r !! name)).
Definition declared (r : Realm) (name : string) : bool :=
  lexically_declared r name || bool_decide (is_Some (object r !! name)).

(** The top-level names of a script. *)
Record Declarations : Type := mkDeclarations {
  lexNames : list string;   (* let, const, class *)
  varNames : list string;   (* var *)
  funNames : list string    (* function *)
}.

(** A lexical name must be new; a var or function name must not be a
    lexical name already. *)
Definition first_conflict (d : Declarations) (r : Realm) : option string :=
  match List.find (declared r) (lexNames d) with
  | Some n => Some n
  | None => List.find (lexically_declared r) (varNames d ++ funNames d)
  end.

Definition declare (d : Declarations) (r : Realm) : Realm :=
  mkRealm
    (foldr (fun n m => <[n := Uninitialized]> m) (lexical r) (lexNames d))
    (foldr (fun n m => <[n := VFunction n]> m)
       (foldr (fun n m => match m !! n with
                          | Some _ => m
                          | None => <[n := VUndefined]> m
                          end)
          (object r) (varNames d))
       (funNames d)).

(** Instantiation of a script's declarations, before its first statement
    runs: a clash is a SyntaxError and nothing of the script runs. *)
Definition instantiate (d : Declarations) : Eff Realm unit :=
  fun w =>
    match first_conflict d (store w) with
    | Some n => (Throw (SyntaxError n), w)
    | None => (Normal tt, set_store (declare d) w)
    end.

(** [let name = v;] (or [const], or a class declaration) reached. *)
Definition initialize (name : string) (v : Value) : Eff Realm unit :=
  modify_store (fun r => mkRealm (<[name := Initialized v]> (lexical r)) (object r)).

(** A read of [name]. *)
Definition read (name : string) : Eff Realm Value :=
  fun w =>
    match lexical (store w) !! name with
    | Some (Initialized v) => (Normal v, w)
    | Some Uninitialized => (Throw (ReferenceError name), w)
    | None =>
        match object (store w) !! name with
        | Some v => (Normal v, w)
        | None => (Throw (ReferenceError name), w)
        end
    end.

(** [name = v;] *)
Definition assign (name : string) (v : Value) : Eff Realm unit :=
  fun w =>
    match lexical (store w) !! name with
    | Some (Initialized _) =>
        (Normal tt, set_store (fun r => mkRealm (<[name := Initialized v]> (lexical r)) (object r)) w)
    | Some Uninitialized => (Throw (ReferenceError name), w)
    | None =>
        (Normal tt, set_store (fun r => mkRealm (lexical r) (<[name := v]> (object r))) w)
    end.

(** A top-level statement; [None] when a loop in it ran out of fuel. *)
Definition Statement : Type := World Realm -> option (Completion unit * World Realm).

Definition stmt (m : Eff Realm unit) : Statement := fun w => Some (m w).

Record Script : Type := mkScript {
  declarations : Declarations;
  statements : nat -> list Statement   (* by the fuel given to each loop *)
}.

(** Statements run in order; the first one that throws ends the run. *)
Fixpoint run_statements (l : list Statement) : Statement :=
  fun w =>
    match l with
    | [] => Some (Normal tt, w)
    | s :: rest =>
        match s w with
        | Some (Normal _, w') => run_statements rest w'
        | stop => stop
        end
    end.

Definition evaluate (fuel : nat) (s : Script) : Statement :=
  fun w =>
    match instantiate (declarations s) w with
    | (Normal _, w') => run_statements (statements s fuel) w'
    | (Throw e, w') => Some (Throw e, w')
    end.

(** Several scripts, one after the other, in one realm.  An uncaught
    exception ends the script that raised it, not the ones after it; the
    list gathers how each script ended. *)
Fixpoint evaluate_all (fuel : nat) (l : list Script) (w : World Realm)
    : option (list (Completion unit) * World Realm) :=
  match l with
  | [] => Some ([], w)
  | s :: rest =>
      match evaluate fuel s w with
      | Some (c, w') =>
          match evaluate_all fuel rest w' with
          | Some (cs, w'') => Some (c :: cs, w'')
          | None => None
          end
      | None => None
      end
  end.

End JS.

Import JS.

(** ** Variable Declaration/var-declaration.ts *)

Module VarDeclaration.

(** The function-scoped variables of [sumMatrix]: every [var] of the body,
    hoisted.  There is one [i], whichever loop declares it; both loops set
    it to 0 before they read it. *)
Record Locals : Type := mkLocals {
  sum : number;
  i : nat;
  currentRow : option (list number)
}.

Definition set_sum (v : number) (l : Locals) : Locals :=
  mkLocals v (i l) (currentRow l).
Definition set_i (v : nat) (l : Locals) : Locals :=
  mkLocals (sum l) v (currentRow l).
Definition set_currentRow (v : option (list number)) (l : Locals) : Locals :=
  mkLocals (sum l) (i l) v.

(** for (var i = 0; i < currentRow.length; i++) { sum += currentRow[i]; } *)
Definition inner_loop (fuel : nat) (row : list number) (l : Locals) : Run Locals :=
  for_var fuel
    (set_i 0)
    (fun l => i l <? length row)%nat
    (fun l => set_i (S (i l)) l)
    (fun l => Some (Normal (set_sum (sum l + number_at row (i l))%float l)))
    l.

(** function sumMatrix(matrix: number[][]) *)
Definition sumMatrix (fuel : nat) (matrix : list (list number)) : Run number :=
  match
    for_var fuel
      (set_i 0)
      (fun l => i l <? length matrix)%nat
      (fun l => set_i (S (i l)) l)
      (fun l =>
         let l := set_currentRow (matrix !! i l) l in
         match currentRow l with
         | Some row => inner_loop fuel row l
         | None => Some (Throw (TypeError "currentRow.length"))
         end)
      (mkLocals 0%float 0 None)
  with
  | Some (Normal l) => Some (Normal (sum l))
  | Some (Throw e) => Some (Throw e)
  | None => None
  end.

End VarDeclaration.

(** ** Variable Declaration/let-declarations.ts *)

Module LetDeclarations.

(** function f1(input: boolean): [b] when [input], undefined otherwise. *)
Definition f1 (input : bool) : option number :=
  let a := 100%float in
  if input then
    let b := (a + 1)%float in
    Some b
  else None.

(** try { throw "oh no!"; } catch(e) { console.log("Oh well."); } *)
Definition try_body {S} : Eff S unit := throw (ThrownString "oh no!").
Definition catch_clause {S} (e : Exception) : Eff S unit :=
  console_log (VString "Oh well.").
Definition try_statement {S} : Eff S unit := try_catch try_body catch_clause.

(** function foo1() { return d; } *)
Definition foo1 : Eff Realm Value := read "d".

(** function f2(x) { var x; var x; if (true) { var x; } } *)
Definition f2 (x : Value) : Value := VUndefined.

(** function fun1(condition, y) *)
Definition fun1 (condition : bool) (y : number) : number :=
  if condition then
    let y := 100%float in
    y
  else y.
Arguments fun1 condition y%_float.

(** The variables of [sumMatrix1] that outlive a loop: [sum], and
    [currentRow], which is a [var].  Each loop has an [i] of its own. *)
Record Locals : Type := mkLocals {
  sum : number;
  currentRow : option (list number)
}.

Definition set_sum (v : number) (l : Locals) : Locals := mkLocals v (currentRow l).
Definition set_currentRow (v : option (list number)) (l : Locals) : Locals :=
  mkLocals (sum l) v.

(** for (let i = 0; i < currentRow.length; i++) { sum += currentRow[i]; } *)
Definition inner_loop (fuel : nat) (row : list number) (l : Locals) : Run Locals :=
  for_let fuel 0
    (fun _ i => i <? length row)%nat
    S
    (fun l i => Some (Normal (set_sum (sum l + number_at row i)%float l)))
    l.

(** function sumMatrix1(matrix: number[][]) *)
Definition sumMatrix1 (fuel : nat) (matrix : list (list number)) : Run number :=
  match
    for_let fuel 0
      (fun _ i => i <? length matrix)%nat
      S
      (fun l i =>
         let l := set_currentRow (matrix !! i) l in
         match currentRow l with
         | Some row => inner_loop fuel row l
         | None => Some (Throw (TypeError "currentRow.length"))
         end)
      (mkLocals 0%float None)
  with
  | Some (Normal l) => Some (Normal (sum l))
  | Some (Throw e) => Some (Throw e)
  | None => None
  end.

(** function theCityThatAlwaysSleeps() *)
Definition theCityThatAlwaysSleeps : Completion string :=
  let getCity : option (unit -> string) := None in
  let getCity :=
    if true then
      let city := "Seattle" in
      Some (fun _ : unit => city)
    else getCity in
  match getCity with
  | Some f => Normal (f tt)
  | None => Throw (TypeError "getCity")
  end.

(** for (let i = 0; i < 10; i++) {
        setTimeout(function() { console.log(i); }, 100 * i); }
    Every iteration has its own [i], which the function captures. *)
Definition timeout_loop (fuel : nat) : Statement :=
  fun w =>
    match
      for_let fuel 0%float
        (fun _ i => PrimFloat.ltb i 10)
        (fun i => (i + 1)%float)
        (fun w i =>
           match setTimeout (Closure_log (VNumber i)) (100 * i)%float w with
           | (Normal _, w') => Some (Normal w')
           | (Throw e, _) => Some (Throw e)
           end)
        w
    with
    | Some (Normal w') => Some (Normal tt, w')
    | Some (Throw e) => Some (Throw e, w)
    | None => None
    end.

Definition declarations : Declarations :=
  mkDeclarations
    ["hello"; "c"; "d"; "x1"]
    []
    ["f1"; "foo1"; "f2"; "fun1"; "sumMatrix1"; "theCityThatAlwaysSleeps"].

(** The statements before the call [foo1();], the call, and what follows. *)
Definition before_call : list Statement := [
  stmt (initialize "hello" (VString "Hello!"));
  stmt try_statement;
  stmt (initialize "c" VUndefined)
].

Definition call_foo1 : Statement := stmt (_ ← foo1; mret tt).

Definition after_call (fuel : nat) : list Statement := [
  stmt (initialize "d" VUndefined);
  stmt (initialize "x1" (VNumber 10));
  stmt (let _ := fun1 false 0 in mret tt);
  stmt (let _ := fun1 true 0 in mret tt);
  timeout_loop fuel
].

Definition script : Script :=
  mkScript declarations (fun fuel => (before_call ++ call_foo1 :: after_call fuel)%list).

End LetDeclarations.

(** ** Interfaces/interfaces.ts *)

Module Interfaces.

(** function printLabel(labelledObj: { label: string }) *)
Definition printLabel {S} (labelledObj : Value) : Eff S unit :=
  label ← complete (label_of labelledObj);
  console_log label.

(** function printLabel1(labelledObj: LabelledValue) *)
Definition printLabel1 {S} (labelledObj : Value) : Eff S unit :=
  label ← complete (label_of labelledObj);
  console_log label.

(** interface SquareConfig { color?: string; width?: number; } *)
Module SquareConfig.
Record t : Type := mk { color : option string; width : option number }.
End SquareConfig.

(** {color: string; area: number} *)
Module Square.
Record t : Type := mk { color : string; area : number }.
Arguments mk color area%_float.
Definition set_color (v : string) (s : t) : t := mk v (area s).
Definition set_area (v : number) (s : t) : t := mk (color s) v.
End Square.

(** function createSquare(config: SquareConfig) *)
Definition createSquare (config : SquareConfig.t) : Square.t :=
  let newSquare := Square.mk "white" 100 in
  let newSquare :=
    match SquareConfig.color config with
    | Some color =>
        if ToBoolean_string color then Square.set_color color newSquare else newSquare
    | None => newSquare
    end in
  let newSquare :=
    match SquareConfig.width config with
    | Some width =>
        if ToBoolean_number width
        then Square.set_area (width * width)%float newSquare
        else newSquare
    | None => newSquare
    end in
  newSquare.

Definition Square_value (s : Square.t) : Value :=
  VObject [("color", VString (Square.color s)); ("area", VNumber (Square.area s))].

Definition declarations : Declarations :=
  mkDeclarations
    ["myObj"; "myObj1"; "mySquare"; "p1"; "d"; "ro";
     "Control"; "Button"; "TextBox"; "Location1"]
    []
    ["printLabel"; "printLabel1"; "createSquare"].

Definition size_10_object : Value :=
  VObject [("size", VNumber 10); ("label", VString "Size 10 Object")].

Definition statements : list Statement := [
  stmt (initialize "myObj" size_10_object);
  stmt (o ← read "myObj"; printLabel o);
  stmt (initialize "myObj1" size_10_object);
  stmt (o ← read "myObj1"; printLabel1 o);
  stmt (initialize "mySquare"
          (Square_value (createSquare (SquareConfig.mk (Some "black") None))));
  stmt (initialize "p1" (VObject [("x", VNumber 10); ("y", VNumber 20)]));
  stmt (initialize "d" (VArray [VNumber 1; VNumber 2; VNumber 3; VNumber 4]));
  stmt (v ← read "d"; initialize "ro" v);
  stmt (v ← read "ro"; assign "d" v);
  stmt (initialize "Control" (VFunction "Control"));
  stmt (_ ← read "Control"; initialize "Button" (VFunction "Button"));
  stmt (_ ← read "Control"; initialize "TextBox" (VFunction "TextBox"));
  stmt (initialize "Location1" (VFunction "Location1"))
].

Definition script : Script := mkScript declarations (fun _ => statements).

End Interfaces.

(** ** Basic Types/basic-types.ts *)

Module BasicTypes.

(** function error(message: string): never { throw new Error(message); } *)
Definition error {S} (message : string) : Eff S Empty_set :=
  throw (Error message).

(** function fail() { return error("Something failed"); } *)
Definition fail {S} : Eff S Empty_set :=
  error "Something failed".

End BasicTypes.

(** ** Variable Declaration/const-declarations.ts *)

Module ConstDeclarations.

Definition numLivesForCat : number := 9%float.

(** The object that the constant [kitty] is bound to. *)
Record Kitty : Type := mkKitty { name : string; numLives : number }.

Definition kitty : Kitty := mkKitty "Aurora" numLivesForCat.

Definition set_name (v : string) : Eff Kitty unit :=
  modify_store (fun k => mkKitty v (numLives k)).
Definition decrement_numLives : Eff Kitty unit :=
  modify_store (fun k => mkKitty (name k) (numLives k - 1)%float).

(** kitty.name = "Rory"; kitty.name = "Kitty"; kitty.name = "Cat";
    kitty.numLives--; *)
Definition statements : Eff Kitty unit :=
  set_name "Rory" ;;
  set_name "Kitty" ;;
  set_name "Cat" ;;
  decrement_numLives.

End ConstDeclarations.

(** ** The accessors file (Employee5, passcode, Employee6) *)

Module Accessors.

(** class Employee6 { private _fullName: string; ... }: the field is
    undefined until it is assigned. *)
Record Employee6 : Type := mkEmployee6 { _fullName : option string }.

(** The module-level [passcode] and the [Employee6] objects created so
    far, by address. *)
Record Store : Type := mkStore {
  passcode : string;
  heap : gmap nat Employee6
}.

(** get fullName(): string { return this._fullName; } *)
Definition get_fullName (this : nat) : Eff Store (option string) :=
  s ← get_store;
  mret (heap s !! this ≫= _fullName).

(** set fullName(newName: string) *)
Definition set_fullName (this : nat) (newName : string) : Eff Store unit :=
  s ← get_store;
  if ToBoolean_string (passcode s) && String.eqb (passcode s) "secret passcode"
  then modify_store (fun s =>
         mkStore (passcode s) (alter (fun _ => mkEmployee6 (Some newName)) this (heap s)))
  else console_log (VString "Error: Unauthorized update of employee!").

(** new Employee6() *)
Definition new_Employee6 : Eff Store nat :=
  s ← get_store;
  let this := fresh (dom (heap s)) in
  modify_store (fun s => mkStore (passcode s) (<[this := mkEmployee6 None]> (heap s))) ;;
  mret this.

(** let employee6 = new Employee6();
    employee6.fullName = "Ashwani Luhaniwal";
    if (employee6.fullName) { console.log(employee6.fullName); } *)
Definition statements : Eff Store nat :=
  employee6 ← new_Employee6;
  set_fullName employee6 "Ashwani Luhaniwal" ;;
  fullName ← get_fullName employee6;
  (if ToBoolean_opt ToBoolean_string fullName
   then
     fullName ← get_fullName employee6;
     console_log (match fullName with Some s => VString s | None => VUndefined end)
   else mret tt) ;;
  mret employee6.

(** The world just after [let passcode = "secret passcode";]. *)
Definition start : World Store := mkWorld [] [] (mkStore "secret passcode" ∅).

End Accessors.

(** * What the snippets compute *)

(** ** Index loops *)

Section IndexLoops.

Context {S : Type}.

(** [count] iterations of a loop body [f], the counter starting at [j]. *)
Fixpoint iterate_from (f : S -> nat -> S) (j count : nat) (s : S) : S :=
  match count with
  | O => s
  | Datatypes.S count' => iterate_from f (Datatypes.S j) count' (f s j)
  end.

Variable n : nat.
Variable f : S -> nat -> S.
Variable body : S -> nat -> Run S.
Hypothesis body_runs : forall s i, i < n -> body s i = Some (Normal (f s i)).

Lemma while_counts_up count : forall j fuel s,
  j + count = n -> count < fuel ->
  while_ fuel (fun si => snd si <? n)%nat
    (fun si => match body (fst si) (snd si) with
               | Some (Normal s') => Some (Normal (s', Datatypes.S (snd si)))
               | Some (Throw e) => Some (Throw e)
               | None => None
               end)
    (s, j)
  = Some (Normal (iterate_from f j count s, n)).
Proof.
  induction count as [|count IH]; intros j fuel s Hn Hfuel;
    (destruct fuel as [|fuel]; [lia|]); cbn [while_ fst snd].
  - replace j with n by lia. rewrite Nat.ltb_irrefl. reflexivity.
  - assert (Hj : j < n) by lia.
    apply Nat.ltb_lt in Hj as Hjb. rewrite Hjb.
    rewrite (body_runs s j Hj). cbn [iterate_from].
    apply IH; lia.
Qed.

Lemma for_let_counts_up fuel s :
  n < fuel ->
  for_let fuel 0 (fun _ i => i <? n)%nat Datatypes.S body s
  = Some (Normal (iterate_from f 0 n s)).
Proof.
  intros Hfuel. unfold for_let.
  rewrite (while_counts_up n 0 fuel s); [reflexivity | lia | lia].
Qed.

End IndexLoops.

(** ** sumMatrix1 and sumMatrix *)

Module SumMatrix.

Import LetDeclarations.

(** The sum of a row's elements onto [acc], left to right. *)
Definition add_row (acc : number) (row : list number) : number :=
  fold_left PrimFloat.add row acc.

(** The sum of all elements of all rows, from 0, row after row. *)
Definition sum_of_all_elements (matrix : list (list number)) : number :=
  fold_left add_row matrix 0%float.

(** Fuel that lets every loop of [sumMatrix1] finish on [matrix]. *)
Definition enough_fuel (matrix : list (list number)) : nat :=
  Datatypes.S (max (length matrix) (max_list_with length matrix)).

Lemma row_length_le_max (matrix : list (list number)) i row :
  matrix !! i = Some row -> length row <= max_list_with length matrix.
Proof.
  revert i. induction matrix as [|r matrix IH]; intros [|i] H; simplify_eq/=.
  - lia.
  - specialize (IH _ H). lia.
Qed.

Definition inner_step (row : list number) (l : Locals) (i : nat) : Locals :=
  set_sum (sum l + number_at row i)%float l.

Lemma inner_iterations (rest : list number) : forall (done : list number) (l : Locals),
  iterate_from (inner_step (done ++ rest)) (length done) (length rest) l
  = set_sum (add_row (sum l) rest) l.
Proof.
  induction rest as [|x rest IH]; intros done l; cbn [iterate_from length].
  - destruct l; reflexivity.
  - replace (done ++ x :: rest)%list with ((done ++ [x]) ++ rest)%list
      by (rewrite <- app_assoc; reflexivity).
    replace (Datatypes.S (length done)) with (length (done ++ [x])%list)
      by (rewrite length_app; simpl; lia).
    rewrite IH. unfold inner_step at 1, number_at.
    rewrite <- app_assoc. cbn [app]. rewrite list_lookup_middle by reflexivity.
    destruct l; reflexivity.
Qed.

Lemma inner_loop_sums fuel (row : list number) (l : Locals) :
  length row < fuel ->
  inner_loop fuel row l = Some (Normal (set_sum (add_row (sum l) row) l)).
Proof.
  intros Hfuel. unfold inner_loop.
  rewrite (for_let_counts_up (length row) (inner_step row)); [|reflexivity|assumption].
  rewrite <- (inner_iterations row [] l). reflexivity.
Qed.

Definition outer_step (matrix : list (list number)) (l : Locals) (i : nat) : Locals :=
  match matrix !! i with
  | Some row => mkLocals (add_row (sum l) row) (Some row)
  | None => l
  end.

Lemma outer_iterations (rest : list (list number)) :
  forall (done : list (list number)) (l : Locals),
  sum (iterate_from (outer_step (done ++ rest)) (length done) (length rest) l)
  = fold_left add_row rest (sum l).
Proof.
  induction rest as [|row rest IH]; intros done l; cbn [iterate_from length fold_left].
  - reflexivity.
  - replace (done ++ row :: rest)%list with ((done ++ [row]) ++ rest)%list
      by (rewrite <- app_assoc; reflexivity).
    replace (Datatypes.S (length done)) with (length (done ++ [row])%list)
      by (rewrite length_app; simpl; lia).
    rewrite IH. unfold outer_step at 1.
    rewrite <- app_assoc. cbn [app]. rewrite list_lookup_middle by reflexivity.
    reflexivity.
Qed.

(** With enough fuel, [sumMatrix1] returns, and returns the sum. *)
Lemma sumMatrix1_computes (matrix : list (list number)) (k : nat) :
  sumMatrix1 (enough_fuel matrix + k) matrix
  = Some (Normal (sum_of_all_elements matrix)).
Proof.
  unfold sumMatrix1.
  rewrite (for_let_counts_up (length matrix) (outer_step matrix)).
  - cbn beta iota. do 2 f_equal.
    exact (outer_iterations matrix [] (mkLocals 0%float None)).
  - intros l i Hi. unfold outer_step.
    destruct (lookup_lt_is_Some_2 matrix i Hi) as [row Hrow].
    cbn [set_currentRow currentRow]. rewrite Hrow.
    rewrite inner_loop_sums.
    + reflexivity.
    + pose proof (row_length_le_max matrix i row Hrow). unfold enough_fuel. lia.
  - unfold enough_fuel. lia.
Qed.

(** One turn of the outer loop of [sumMatrix], with its update [i++]. *)
Definition sumMatrix_turn (fuel : nat) (matrix : list (list number))
    (l : VarDeclaration.Locals) : Run VarDeclaration.Locals :=
  match
    (let l := VarDeclaration.set_currentRow (matrix !! VarDeclaration.i l) l in
     match VarDeclaration.currentRow l with
     | Some row => VarDeclaration.inner_loop fuel row l
     | None => Some (Throw (TypeError "currentRow.length"))
     end)
  with
  | Some (Normal l') => Some (Normal (VarDeclaration.set_i (S (VarDeclaration.i l')) l'))
  | stop => stop
  end.

(** On two empty rows the inner loop puts [i] back to 0 in every turn, and
    the outer loop is at row 1 for ever. *)
Lemma sumMatrix_stuck_at_row_1 (fuel0 : nat) : forall fuel l,
  VarDeclaration.i l = 1 ->
  while_ fuel (fun l => VarDeclaration.i l <? 2)%nat (sumMatrix_turn fuel0 [[]; []]) l
  = None.
Proof.
  induction fuel as [|fuel IH]; intros l Hi; [reflexivity|].
  cbn [while_]. rewrite Hi. cbn [Nat.ltb Nat.leb].
  unfold sumMatrix_turn. rewrite Hi.
  cbn [lookup list_lookup VarDeclaration.set_currentRow VarDeclaration.currentRow].
  destruct fuel0 as [|fuel0]; [reflexivity|].
  cbn. apply IH. reflexivity.
Qed.

(** [sumMatrix] need not return at all: on [[], []] no fuel is enough. *)
Remark sumMatrix_does_not_return (fuel : nat) :
  VarDeclaration.sumMatrix fuel [[]; []] = None.
Proof.
  unfold VarDeclaration.sumMatrix, for_var. fold (sumMatrix_turn fuel [[]; []]).
  destruct fuel as [|fuel]; [reflexivity|].
  cbn [while_ VarDeclaration.set_i VarDeclaration.i length Nat.ltb Nat.leb].
  unfold sumMatrix_turn at 1. cbn.
  rewrite sumMatrix_stuck_at_row_1; reflexivity.
Qed.

Definition ones : list (list number) := [[1; 1]; [1; 1]]%float.

Lemma two_is_not_four : 2%float <> 4%float.
Proof.
  intros H. apply (f_equal (fun x => PrimFloat.eqb x 2)) in H.
  vm_compute in H. discriminate H.
Qed.

Lemma sumMatrix_ones (k : nat) :
  VarDeclaration.sumMatrix (3 + k) ones = Some (Normal 2%float).
Proof. reflexivity. Qed.

(** C2: [sumMatrix1] returns the sum of all elements of all rows of every
    matrix, and [sumMatrix] does not: on [[1, 1], [1, 1]] it returns 2, not
    4, because its inner loop leaves the one shared [i] at 2 and the outer
    loop then stops.  The two functions are not extensionally equal. *)
Theorem sumMatrix1_sums_sumMatrix_differs :
  (forall (matrix : list (list number)) (k : nat),
      sumMatrix1 (enough_fuel matrix + k) matrix
      = Some (Normal (sum_of_all_elements matrix)))
  /\ (forall k : nat,
        VarDeclaration.sumMatrix (3 + k) ones = Some (Normal 2%float)
        /\ sumMatrix1 (3 + k) ones = Some (Normal 4%float))
  /\ sum_of_all_elements ones = 4%float
  /\ 2%float <> 4%float
  /\ ~ (forall fuel matrix, VarDeclaration.sumMatrix fuel matrix = sumMatrix1 fuel matrix).
Proof.
  split; [exact sumMatrix1_computes|].
  split; [intros k; split; reflexivity|].
  split; [reflexivity|].
  split; [exact two_is_not_four|].
  intros Heq. specialize (Heq 3 ones).
  change (Some (Normal 2%float) = Some (Normal 4%float)) in Heq.
  apply two_is_not_four. congruence.
Qed.

(** The functions of the source whose parameter is a list of rows of
    numbers. *)
Definition matrix_functions : list (nat -> list (list number) -> Run number) :=
  [VarDeclaration.sumMatrix; sumMatrix1].

(** [f] turns every matrix into one aggregated number, the sum of its
    elements. *)
Definition computes_aggregate (f : nat -> list (list number) -> Run number) : Prop :=
  forall matrix, exists fuel, f fuel matrix = Some (Normal (sum_of_all_elements matrix)).

(** "No function consumes a structured collection of input data and computes
    an aggregated result from it." *)
Definition no_data_processing : Prop :=
  forall f, In f matrix_functions -> ~ computes_aggregate f.

Lemma sumMatrix1_computes_aggregate : computes_aggregate sumMatrix1.
Proof.
  intros matrix. exists (enough_fuel matrix + 0). apply sumMatrix1_computes.
Qed.

(** C6, as stated, fails: [sumMatrix1] takes a list of rows of numbers and
    returns their sum, 10 on [[1, 2], [3, 4]]. *)
Lemma no_data_processing_counterexample :
  sumMatrix1 3 [[1; 2]; [3; 4]]%float = Some (Normal 10%float)
  /\ ~ no_data_processing.
Proof.
  split; [reflexivity|].
  intros Hnone. apply (Hnone sumMatrix1).
  - right. left. reflexivity.
  - exact sumMatrix1_computes_aggregate.
Qed.

(** C6, amended: the program does hold a data-processing function.
    [sumMatrix1] consumes a list of rows of numbers and aggregates it: it
    returns the sum of all elements, 0 on the empty matrix, and on a matrix
    with one more row the sum so far with the elements of that row added. *)
Theorem sumMatrix1_aggregates_rows :
  computes_aggregate sumMatrix1
  /\ (forall k : nat, sumMatrix1 (1 + k) [] = Some (Normal 0%float))
  /\ (forall (matrix : list (list number)) (row : list number) (k : nat),
        sumMatrix1 (enough_fuel (matrix ++ [row]) + k) (matrix ++ [row])
        = Some (Normal (add_row (sum_of_all_elements matrix) row))).
Proof.
  split; [exact sumMatrix1_computes_aggregate|].
  split; [reflexivity|].
  intros matrix row k. rewrite sumMatrix1_computes.
  unfold sum_of_all_elements. rewrite fold_left_app. reflexivity.
Qed.

End SumMatrix.

(** ** createSquare *)

Module CreateSquare.

Import Interfaces.

(** C5: the colour of the square is [config.color] when that is a non-empty
    string and "white" otherwise; its area is [config.width * config.width]
    when the width is a number other than 0, -0 and NaN, and 100 otherwise.
    In particular [createSquare({width: 0})] has area 100. *)
Theorem createSquare_defaults (config : SquareConfig.t) :
  (forall c : string,
      SquareConfig.color config = Some c -> c <> "" ->
      Square.color (createSquare config) = c)
  /\ (SquareConfig.color config = None \/ SquareConfig.color config = Some "" ->
      Square.color (createSquare config) = "white")
  /\ (forall w : number,
        SquareConfig.width config = Some w ->
        PrimFloat.is_zero w = false -> PrimFloat.is_nan w = false ->
        Square.area (createSquare config) = (w * w)%float)
  /\ (forall w : number,
        SquareConfig.width config = Some w ->
        PrimFloat.is_zero w = true \/ PrimFloat.is_nan w = true ->
        Square.area (createSquare config) = 100%float)
  /\ (SquareConfig.width config = None ->
      Square.area (createSquare config) = 100%float)
  /\ Square.area (createSquare (SquareConfig.mk None (Some 0%float))) = 100%float
  /\ Square.area (createSquare (SquareConfig.mk None (Some (-0)%float))) = 100%float
  /\ Square.area (createSquare (SquareConfig.mk None (Some PrimFloat.nan))) = 100%float.
Proof.
  destruct config as [color width]; unfold createSquare; cbn [SquareConfig.color SquareConfig.width].
  repeat split.
  - intros c -> Hc. destruct c; [congruence|].
    destruct width as [w|]; [destruct (ToBoolean_number w)|]; reflexivity.
  - intros [-> | ->]; (destruct width as [w|]; [destruct (ToBoolean_number w)|]); reflexivity.
  - intros w -> Hz Hn. unfold ToBoolean_number. rewrite Hz, Hn.
    destruct color as [c|]; [destruct (ToBoolean_string c)|]; reflexivity.
  - intros w -> Hw. unfold ToBoolean_number.
    assert (PrimFloat.is_zero w || PrimFloat.is_nan w = true) as ->
      by (destruct Hw as [-> | ->]; [reflexivity | apply orb_true_r]).
    destruct color as [c|]; [destruct (ToBoolean_string c)|]; reflexivity.
  - intros ->. destruct color as [c|]; [destruct (ToBoolean_string c)|]; reflexivity.
Qed.

Lemma createSquare_defaults_witness :
  let config := SquareConfig.mk (Some "black") (Some 3%float) in
  Square.color (createSquare config) = "black"
  /\ Square.area (createSquare config) = 9%float.
Proof.
  pose proof (createSquare_defaults (SquareConfig.mk (Some "black") (Some 3%float)))
    as (Hcolor & _ & Harea & _).
  split.
  - apply (Hcolor "black"); [reflexivity | discriminate].
  - apply (Harea 3%float); reflexivity.
Defined.

End CreateSquare.

(** ** The fullName accessors of Employee6 *)

Module AccessorFacts.

Import Accessors.

Definition secret : string := "secret passcode".

Definition authorised (w : World Store) : bool :=
  ToBoolean_string (passcode (store w)) && String.eqb (passcode (store w)) secret.

Lemma authorised_iff (w : World Store) :
  authorised w = true <-> passcode (store w) = secret.
Proof.
  unfold authorised. split.
  - intros H. apply andb_true_iff in H as [_ H]. apply String.eqb_eq. exact H.
  - intros ->. reflexivity.
Qed.

Lemma unauthorised_iff (w : World Store) :
  authorised w = false <-> passcode (store w) <> secret.
Proof.
  rewrite <- authorised_iff. destruct (authorised w); split; congruence.
Qed.

(** The two paths of the setter. *)
Lemma set_fullName_authorised (this : nat) (newName : string) (w : World Store) :
  authorised w = true ->
  set_fullName this newName w
  = (Normal tt,
     mkWorld (console w) (timers w)
       (mkStore (passcode (store w))
          (alter (fun _ => mkEmployee6 (Some newName)) this (heap (store w))))).
Proof.
  intros H. unfold authorised, secret in H.
  unfold set_fullName, mbind, Eff_bind, get_store. rewrite H. reflexivity.
Qed.

Lemma set_fullName_unauthorised (this : nat) (newName : string) (w : World Store) :
  authorised w = false ->
  set_fullName this newName w
  = (Normal tt,
     mkWorld (console w ++ [VString "Error: Unauthorized update of employee!"])
       (timers w) (store w)).
Proof.
  intros H. unfold authorised, secret in H.
  unfold set_fullName, mbind, Eff_bind, get_store. rewrite H. reflexivity.
Qed.

Lemma get_fullName_reads (this : nat) (w : World Store) :
  get_fullName this w = (Normal (heap (store w) !! this ≫= _fullName), w).
Proof. reflexivity. Qed.

Lemma snoc_is_longer {A} (l : list A) (x : A) : (l ++ [x])%list <> l.
Proof.
  intros H. apply (f_equal length) in H. rewrite length_app in H. simpl in H. lia.
Qed.

(** C4: on an Employee6 instance, the setter stores [newName] in [_fullName]
    exactly when [passcode] is "secret passcode"; otherwise the store is as
    it was, and the getter reads what it read before. *)
Theorem set_fullName_guarded
    (this : nat) (newName : string) (w : World Store) (e : Employee6) :
  heap (store w) !! this = Some e ->
  let w' := snd (set_fullName this newName w) in
  (passcode (store w) = secret ->
     heap (store w') !! this = Some (mkEmployee6 (Some newName))
     /\ fst (get_fullName this w') = Normal (Some newName)
     /\ console w' = console w)
  /\ (passcode (store w) <> secret ->
        store w' = store w
        /\ fst (get_fullName this w') = fst (get_fullName this w)
        /\ fst (get_fullName this w') = Normal (_fullName e)
        /\ console w' = (console w ++ [VString "Error: Unauthorized update of employee!"])%list)
  /\ (console w' = console w <-> passcode (store w) = secret).
Proof.
  intros He w'. subst w'. destruct (authorised w) eqn:Hauth.
  - rewrite (set_fullName_authorised _ _ _ Hauth). cbn [snd].
    apply authorised_iff in Hauth as Hp.
    rewrite !get_fullName_reads. cbn [fst store heap console].
    rewrite lookup_alter_eq, He. cbn.
    repeat split; try reflexivity; try congruence.
  - rewrite (set_fullName_unauthorised _ _ _ Hauth). cbn [snd].
    apply unauthorised_iff in Hauth as Hp.
    rewrite !get_fullName_reads. cbn [fst store heap console].
    rewrite He. cbn.
    repeat split; try reflexivity; try congruence.
    intros H. exfalso. exact (snoc_is_longer _ _ H).
Qed.

Lemma set_fullName_guarded_witness :
  let w := snd (new_Employee6 start) in
  heap (store w) !! 0 = Some (mkEmployee6 None)
  /\ fst (get_fullName 0 (snd (set_fullName 0 "Ashwani Luhaniwal" w)))
     = Normal (Some "Ashwani Luhaniwal").
Proof.
  split; [reflexivity|].
  apply (set_fullName_guarded 0 "Ashwani Luhaniwal" (snd (new_Employee6 start))
           (mkEmployee6 None)); reflexivity.
Defined.

(** Two worlds that differ in [passcode] at most. *)
Definition same_but_passcode (w1 w2 : World Store) : Prop :=
  console w1 = console w2 /\ timers w1 = timers w2
  /\ heap (store w1) = heap (store w2).

(** [passcode] does not flow into what [op] returns and leaves behind. *)
Definition noninterferent {A} (op : Eff Store A) : Prop :=
  forall w1 w2, same_but_passcode w1 w2 ->
    fst (op w1) = fst (op w2) /\ same_but_passcode (snd (op w1)) (snd (op w2)).

(** C3, as stated, fails: the setter run with passcode "secret passcode" and
    with passcode "guess", on the same objects, leaves different objects and
    a different console. *)
Lemma noninterference_counterexample :
  ~ (forall (this : nat) (newName : string), noninterferent (set_fullName this newName)).
Proof.
  intros H.
  destruct (H 0 "Eve" (snd (new_Employee6 start))
              (snd (new_Employee6 (mkWorld [] [] (mkStore "guess" ∅)))))
    as [_ (Hconsole & _)].
  - repeat split.
  - vm_compute in Hconsole. discriminate Hconsole.
Qed.

(** C3, amended: of the operations on Employee6, [passcode] flows into the
    setter only, and only through the test [passcode == "secret passcode"].  The getter and [new
    Employee6()] do the same in two worlds that differ in [passcode]; so does
    the setter when the two passcodes both pass or both fail the test; when
    one passes and the other fails, the consoles differ afterwards. *)
Theorem passcode_flows_through_the_test_only
    (this : nat) (newName : string) (w1 w2 : World Store) :
  same_but_passcode w1 w2 ->
  (fst (get_fullName this w1) = fst (get_fullName this w2)
   /\ same_but_passcode (snd (get_fullName this w1)) (snd (get_fullName this w2)))
  /\ (fst (new_Employee6 w1) = fst (new_Employee6 w2)
      /\ same_but_passcode (snd (new_Employee6 w1)) (snd (new_Employee6 w2)))
  /\ (authorised w1 = authorised w2 ->
      fst (set_fullName this newName w1) = fst (set_fullName this newName w2)
      /\ same_but_passcode (snd (set_fullName this newName w1))
           (snd (set_fullName this newName w2)))
  /\ (authorised w1 <> authorised w2 ->
      console (snd (set_fullName this newName w1))
      <> console (snd (set_fullName this newName w2))).
Proof.
  intros (Hc & Ht & Hh).
  split; [|split; [|split]].
  - rewrite !get_fullName_reads. cbn [fst snd]. rewrite Hh.
    repeat split; assumption.
  - unfold new_Employee6, mbind, Eff_bind, get_store, modify_store, mret, Eff_ret,
      same_but_passcode.
    cbn. rewrite Hh, Hc, Ht. repeat split.
  - intros Hauth. destruct (authorised w1) eqn:H1; symmetry in Hauth.
    + rewrite (set_fullName_authorised _ _ _ H1), (set_fullName_authorised _ _ _ Hauth).
      unfold same_but_passcode. cbn. rewrite Hh. repeat split; assumption.
    + rewrite (set_fullName_unauthorised _ _ _ H1), (set_fullName_unauthorised _ _ _ Hauth).
      unfold same_but_passcode. cbn. rewrite Hc. repeat split; assumption.
  - intros Hauth. destruct (authorised w1) eqn:H1; destruct (authorised w2) eqn:H2;
      try congruence.
    + rewrite (set_fullName_authorised _ _ _ H1), (set_fullName_unauthorised _ _ _ H2).
      cbn. rewrite Hc. intros H. symmetry in H. exact (snoc_is_longer _ _ H).
    + rewrite (set_fullName_unauthorised _ _ _ H1), (set_fullName_authorised _ _ _ H2).
      cbn. rewrite Hc. exact (snoc_is_longer _ _).
Qed.

Lemma passcode_flows_through_the_test_only_witness :
  let w1 := snd (new_Employee6 start) in
  let w2 := snd (new_Employee6 (mkWorld [] [] (mkStore "guess" ∅))) in
  same_but_passcode w1 w2
  /\ console (snd (set_fullName 0 "Eve" w1)) <> console (snd (set_fullName 0 "Eve" w2)).
Proof.
  assert (Hsame : same_but_passcode (snd (new_Employee6 start))
                    (snd (new_Employee6 (mkWorld [] [] (mkStore "guess" ∅)))))
    by (repeat split).
  split; [exact Hsame|].
  apply (passcode_flows_through_the_test_only 0 "Eve" _ _ Hsame).
  vm_compute. discriminate.
Defined.

(** "Every operation leaves all module-level bindings and all previously
    created objects unchanged." *)
Definition no_persistent_state : Prop :=
  forall (this : nat) (newName : string) (w : World Store),
    store (snd (set_fullName this newName w)) = store w.

(** C9, as stated, fails: the name that one call of the setter writes into
    an object created before is what a later call of the getter returns. *)
Lemma no_persistent_state_counterexample :
  let w := snd (new_Employee6 start) in
  fst (get_fullName 0 w) = Normal None
  /\ fst (get_fullName 0 (snd (set_fullName 0 "Ashwani Luhaniwal" w)))
     = Normal (Some "Ashwani Luhaniwal")
  /\ ~ no_persistent_state.
Proof.
  split; [reflexivity|]. split; [reflexivity|].
  intros H. specialize (H 0 "Ashwani Luhaniwal" (snd (new_Employee6 start))).
  apply (f_equal (fun s => heap s !! 0)) in H. vm_compute in H. discriminate H.
Qed.

(** C9, amended: object fields are persistent state.  The setter of
    [fullName] never changes the binding [passcode], the pending timers or any
    object other than its receiver; the getter changes nothing at all; what
    an authorised call of the setter writes on an existing object is read by
    every later call of the getter.  The statements of const-declarations.ts
    likewise change the fields of the object that [kitty] is bound to. *)
Theorem state_persists_in_object_fields_only
    (this : nat) (newName : string) (w : World Store) :
  let w' := snd (set_fullName this newName w) in
  passcode (store w') = passcode (store w)
  /\ timers w' = timers w
  /\ (forall other : nat, other <> this ->
        heap (store w') !! other = heap (store w) !! other)
  /\ snd (get_fullName this w) = w
  /\ (authorised w = true -> is_Some (heap (store w) !! this) ->
        fst (get_fullName this w') = Normal (Some newName))
  /\ ConstDeclarations.statements (mkWorld [] [] ConstDeclarations.kitty)
     = (Normal tt, mkWorld [] [] (ConstDeclarations.mkKitty "Cat" 8%float)).
Proof.
  intros w'. subst w'. destruct (authorised w) eqn:Hauth.
  - rewrite (set_fullName_authorised _ _ _ Hauth). cbn [snd store passcode timers heap].
    repeat split.
    + intros other Hother. apply lookup_alter_ne. congruence.
    + intros _ [e He]. rewrite get_fullName_reads. cbn [fst store heap].
      rewrite lookup_alter_eq, He. reflexivity.
  - rewrite (set_fullName_unauthorised _ _ _ Hauth). cbn [snd store passcode timers heap].
    repeat split. intros H. discriminate H.
Qed.

Lemma state_persists_in_object_fields_only_witness :
  let w := snd (new_Employee6 start) in
  authorised w = true
  /\ fst (get_fullName 0 (snd (set_fullName 0 "Ashwani Luhaniwal" w)))
     = Normal (Some "Ashwani Luhaniwal").
Proof.
  split; [reflexivity|].
  pose proof (state_persists_in_object_fields_only 0 "Ashwani Luhaniwal"
                (snd (new_Employee6 start))) as (_ & _ & _ & _ & Hread & _).
  apply Hread; [reflexivity | exists (mkEmployee6 None); reflexivity].
Defined.

End AccessorFacts.

(** ** Where the snippets throw, catch and report failure *)

Module FailureHandling.

Import AccessorFacts.

(** "No operation signals failure": [error] would return normally. *)
Definition never_signals_failure : Prop :=
  forall (message : string) (w : World unit),
    is_normal (fst (BasicTypes.error message w)) = true.

(** "No operation catches a thrown exception": the catch clause of the try
    statement would never run, and the statement would do what its body
    does. *)
Definition never_catches : Prop :=
  forall w : World unit, LetDeclarations.try_statement w = LetDeclarations.try_body w.

(** "No operation's body distinguishes a success path from a failure path":
    the setter would never take the branch that reports an error. *)
Definition never_reports_failure : Prop :=
  forall (this : nat) (newName : string) (w : World Accessors.Store),
    console (snd (Accessors.set_fullName this newName w)) = console w.

Definition no_failure_handling : Prop :=
  never_signals_failure /\ never_catches /\ never_reports_failure.

Definition nowhere : World unit := mkWorld [] [] tt.

(** C1, as stated, fails three times: [error("Something failed")] throws,
    the try statement of let-declarations.ts catches the string its body
    throws, and the setter of [fullName], run with the wrong passcode,
    reports an error. *)
Lemma no_failure_handling_counterexample :
  ~ never_signals_failure /\ ~ never_catches /\ ~ never_reports_failure
  /\ ~ no_failure_handling.
Proof.
  assert (H1 : ~ never_signals_failure).
  { intros H. specialize (H "Something failed" nowhere). discriminate H. }
  assert (H2 : ~ never_catches).
  { intros H. specialize (H nowhere). discriminate H. }
  assert (H3 : ~ never_reports_failure).
  { intros H.
    specialize (H 0 "Eve" (mkWorld [] [] (Accessors.mkStore "guess" ∅))).
    discriminate H. }
  repeat split; try assumption.
  intros (H & _). exact (H1 H).
Qed.

(** C1, amended: the program does handle failure, in three places.  [error]
    always throws an Error with its message, and [fail] with it; the try
    statement of let-declarations.ts always catches the "oh no!" its body
    throws, logs "Oh well." and completes; the setter of [fullName]
    completes on both of its paths, and on the unauthorised one logs an
    error and writes nothing.  The getter, [new Employee6()],
    [theCityThatAlwaysSleeps] and (given fuel) [sumMatrix1] complete without
    throwing; so does [printLabel] on every argument but undefined and null,
    on which the read of [label] throws a TypeError that nothing catches. *)
Theorem failure_handling_is_confined :
  (forall (S : Type) (message : string) (w : World S),
      BasicTypes.error message w = (Throw (Error message), w)
      /\ BasicTypes.fail w = (Throw (Error "Something failed"), w))
  /\ (forall (S : Type) (w : World S),
        LetDeclarations.try_body w = (Throw (ThrownString "oh no!"), w)
        /\ LetDeclarations.try_statement w
           = (Normal tt, mkWorld (console w ++ [VString "Oh well."]) (timers w) (store w)))
  /\ (forall (this : nat) (newName : string) (w : World Accessors.Store),
        fst (Accessors.set_fullName this newName w) = Normal tt
        /\ (authorised w = false ->
            snd (Accessors.set_fullName this newName w)
            = mkWorld (console w ++ [VString "Error: Unauthorized update of employee!"])
                (timers w) (store w)))
  /\ (forall (this : nat) (w : World Accessors.Store),
        is_normal (fst (Accessors.get_fullName this w)) = true
        /\ is_normal (fst (Accessors.new_Employee6 w)) = true)
  /\ (forall (S : Type) (labelledObj : Value) (w : World S),
        (labelledObj <> VUndefined -> labelledObj <> VNull ->
           fst (Interfaces.printLabel labelledObj w) = Normal tt)
        /\ Interfaces.printLabel VUndefined w = (Throw (TypeError "label"), w)
        /\ Interfaces.printLabel VNull w = (Throw (TypeError "label"), w))
  /\ LetDeclarations.theCityThatAlwaysSleeps = Normal "Seattle"
  /\ (forall (matrix : list (list number)) (k : nat),
        exists total : number,
          LetDeclarations.sumMatrix1 (SumMatrix.enough_fuel matrix + k) matrix
          = Some (Normal total)).
Proof.
  split; [intros S message w; split; reflexivity|].
  split; [intros S w; split; reflexivity|].
  split.
  { intros this newName w. split.
    - destruct (authorised w) eqn:Hauth.
      + rewrite (set_fullName_authorised _ _ _ Hauth). reflexivity.
      + rewrite (set_fullName_unauthorised _ _ _ Hauth). reflexivity.
    - intros Hauth. rewrite (set_fullName_unauthorised _ _ _ Hauth). reflexivity. }
  split; [intros this w; split; reflexivity|].
  split.
  { intros S labelledObj w. split; [|split; reflexivity].
    intros Hundefined Hnull. destruct labelledObj; try reflexivity; congruence. }
  split; [reflexivity|].
  intros matrix k. eexists. apply SumMatrix.sumMatrix1_computes.
Qed.

End FailureHandling.

(** ** Timers *)

Module TimerFacts.

Import LetDeclarations.

(** The timers of the loop: callback [i] after [100 * i] milliseconds. *)
Definition ten_timers : list Timer :=
  map (fun i => mkTimer (100 * i)%float (Closure_log (VNumber i)))
    [0; 1; 2; 3; 4; 5; 6; 7; 8; 9]%float.

Definition zero_to_nine : list Value :=
  map VNumber [0; 1; 2; 3; 4; 5; 6; 7; 8; 9]%float.

(** "No operation schedules or defers execution": the pending timers would
    be the same after the loop as before it. *)
Definition nothing_deferred : Prop :=
  forall (fuel : nat) (w w' : World Realm) (c : Completion unit),
    timeout_loop fuel w = Some (c, w') -> timers w' = timers w.

(** C10, as stated, fails: the loop at the end of let-declarations.ts leaves
    ten callbacks pending and has run none of them. *)
Lemma nothing_deferred_counterexample :
  timeout_loop 11 fresh_world = Some (Normal tt, mkWorld [] ten_timers empty_realm)
  /\ ~ nothing_deferred.
Proof.
  split; [reflexivity|].
  intros H.
  specialize (H 11 fresh_world (mkWorld [] ten_timers empty_realm) (Normal tt) eq_refl).
  discriminate H.
Qed.

Lemma event_loop_runs_ten (c : list Value) (r : Realm) :
  event_loop (mkWorld c ten_timers r) = (Normal tt, mkWorld (c ++ zero_to_nine) [] r).
Proof.
  unfold event_loop, ten_timers, zero_to_nine.
  cbn [map run_callbacks callback call_closure timers].
  unfold mbind, Eff_bind, mret, Eff_ret, console_log. cbn [console timers store].
  rewrite <- !app_assoc. reflexivity.
Qed.

(** C10, amended: one statement defers execution.  The loop at the end of let-declarations.ts, run with no timer
    pending, writes nothing to the console and leaves ten callbacks pending,
    the one that captured [i] due after [100 * i] milliseconds; the event
    loop then runs them one after the other, each to its end, and the console
    gains 0, 1, ..., 9 in that order.  [setTimeout] itself never runs its
    callback. *)
Theorem timeout_loop_defers_ten_callbacks (k : nat) (c : list Value) (r : Realm) :
  timeout_loop (11 + k) (mkWorld c [] r) = Some (Normal tt, mkWorld c ten_timers r)
  /\ event_loop (mkWorld c ten_timers r) = (Normal tt, mkWorld (c ++ zero_to_nine) [] r)
  /\ (forall (f : Closure) (ms : number) (w : World Realm),
        console (snd (setTimeout f ms w)) = console w
        /\ store (snd (setTimeout f ms w)) = store w
        /\ length (timers (snd (setTimeout f ms w))) = Datatypes.S (length (timers w))).
Proof.
  split; [reflexivity|].
  split; [apply event_loop_runs_ten|].
  intros f ms w. cbn [setTimeout snd console store timers].
  repeat split.
  induction (timers w) as [|t pending IH]; cbn [enqueue delay].
  - reflexivity.
  - destruct (PrimFloat.ltb ms (delay t)); cbn [length]; [reflexivity|].
    rewrite IH. reflexivity.
Qed.

End TimerFacts.

(** ** Scripts in the global scope *)

Module ScriptFacts.

(** Rewriting a lookup through the bindings a script has made so far, and
    running the statement that was waiting for it. *)
Ltac run_script :=
  repeat first
    [ rewrite lookup_insert_eq
    | rewrite lookup_insert_ne by done
    | progress cbn [run_statements app store lexical object console timers fst snd]
    | progress unfold stmt, initialize, modify_store, read, assign, set_store,
        Interfaces.printLabel, Interfaces.printLabel1, complete, label_of,
        Interfaces.size_10_object, console_log,
        LetDeclarations.foo1, LetDeclarations.try_statement,
        LetDeclarations.try_body, LetDeclarations.catch_clause,
        try_catch, throw, mbind, Eff_bind, mret, Eff_ret ].

Lemma instantiate_new (d : Declarations) (w : World Realm) :
  first_conflict d (store w) = None ->
  instantiate d w = (Normal tt, set_store (declare d) w).
Proof. intros H. unfold instantiate. rewrite H. reflexivity. Qed.

(** A script one of whose names is taken is rejected, and the world is as it
    was. *)
Lemma evaluate_rejected (fuel : nat) (s : Script) (w : World Realm) (n : string) :
  first_conflict (declarations s) (store w) = Some n ->
  evaluate fuel s w = Some (Throw (SyntaxError n), w).
Proof. intros H. unfold evaluate, instantiate. rewrite H. reflexivity. Qed.

Definition names (d : Declarations) : list string :=
  (lexNames d ++ varNames d ++ funNames d)%list.

(** [r'] has every binding of [r], but for the names of [d]. *)
Definition keeps_other_bindings (d : Declarations) (r r' : Realm) : Prop :=
  forall name : string, name ∉ names d ->
    lexical r' !! name = lexical r !! name /\ object r' !! name = object r !! name.

(** The bindings of let-declarations.ts when [foo1()] throws. *)
Definition realm_at_the_call (r : Realm) : Realm :=
  let r := declare LetDeclarations.declarations r in
  mkRealm
    (<["c" := Initialized VUndefined]>
       (<["hello" := Initialized (VString "Hello!")]> (lexical r)))
    (object r).

(** The bindings of interfaces.ts at its end. *)
Definition realm_of_interfaces (r : Realm) : Realm :=
  let r := declare Interfaces.declarations r in
  let numbers := VArray [VNumber 1; VNumber 2; VNumber 3; VNumber 4] in
  mkRealm
    (foldl (fun m binding => <[fst binding := Initialized (snd binding)]> m)
       (lexical r)
       [("myObj", Interfaces.size_10_object);
        ("myObj1", Interfaces.size_10_object);
        ("mySquare", Interfaces.Square_value (Interfaces.Square.mk "black" 100));
        ("p1", VObject [("x", VNumber 10); ("y", VNumber 20)]);
        ("d", numbers);
        ("ro", numbers);
        ("d", numbers);
        ("Control", VFunction "Control");
        ("Button", VFunction "Button");
        ("TextBox", VFunction "TextBox");
        ("Location1", VFunction "Location1")])
    (object r).

Lemma let_declarations_in (fuel : nat) (w : World Realm) :
  first_conflict LetDeclarations.declarations (store w) = None ->
  evaluate fuel LetDeclarations.script w
  = Some (Throw (ReferenceError "d"),
          mkWorld (console w ++ [VString "Oh well."]) (timers w)
            (realm_at_the_call (store w))).
Proof.
  intros H. unfold evaluate.
  cbn [LetDeclarations.script declarations statements].
  rewrite (instantiate_new _ _ H).
  unfold LetDeclarations.before_call, LetDeclarations.call_foo1, set_store, declare.
  cbn [LetDeclarations.declarations lexNames varNames funNames foldr].
  run_script. reflexivity.
Qed.

Lemma interfaces_in (fuel : nat) (w : World Realm) :
  first_conflict Interfaces.declarations (store w) = None ->
  evaluate fuel Interfaces.script w
  = Some (Normal tt,
          mkWorld (console w ++ [VString "Size 10 Object"; VString "Size 10 Object"])
            (timers w) (realm_of_interfaces (store w))).
Proof.
  intros H. unfold evaluate.
  cbn [Interfaces.script declarations statements].
  rewrite (instantiate_new _ _ H).
  unfold Interfaces.statements, set_store, declare.
  cbn [Interfaces.declarations lexNames varNames funNames foldr].
  run_script. rewrite <- app_assoc. reflexivity.
Qed.

Lemma not_named (name : string) (l : list string) :
  name ∉ l -> Forall (fun n => n <> name) l.
Proof.
  intros H. apply Forall_forall. intros n Hn ->. exact (H Hn).
Qed.

Ltac other_names H :=
  apply not_named in H; cbn in H;
  repeat match goal with
         | H : Forall _ (_ :: _) |- _ => apply Forall_cons in H as [? H]
         end.

Lemma let_declarations_keeps (r : Realm) :
  keeps_other_bindings LetDeclarations.declarations r (realm_at_the_call r).
Proof.
  intros name H. other_names H.
  unfold realm_at_the_call, declare.
  cbn [LetDeclarations.declarations lexNames varNames funNames foldr lexical object].
  rewrite !lookup_insert_ne by assumption. split; reflexivity.
Qed.

Lemma interfaces_keeps (r : Realm) :
  keeps_other_bindings Interfaces.declarations r (realm_of_interfaces r).
Proof.
  intros name H. other_names H.
  unfold realm_of_interfaces, declare.
  cbn [Interfaces.declarations lexNames varNames funNames foldr foldl lexical object fst snd].
  rewrite !lookup_insert_ne by assumption. split; reflexivity.
Qed.

(** A script completes when, run alone, it reaches its end. *)
Definition completes (s : Script) : Prop :=
  exists (fuel : nat) (w' : World Realm),
    evaluate fuel s fresh_world = Some (Normal tt, w').

(** C7, as stated, fails: whatever the fuel, let-declarations.ts does not
    reach its end.  The call [foo1()] reads [d] in its temporal dead zone. *)
Lemma let_declarations_counterexample :
  ~ completes LetDeclarations.script.
Proof.
  intros (fuel & w' & H).
  rewrite let_declarations_in in H by reflexivity.
  discriminate H.
Qed.

(** C7, amended: let-declarations.ts, run alone, ends at the call [foo1()]
    with an uncaught ReferenceError for [d], whatever the fuel; by then it
    has caught its own "oh no!" and logged "Oh well.", [hello] and [c] are
    initialised and [d] is not.  [foo1] throws exactly while [d] is in its
    temporal dead zone and returns the value of [d] once it is initialised.
    interfaces.ts, the statements of const-declarations.ts and those of the
    accessors file reach their end. *)
Theorem let_declarations_stops_at_foo1 :
  (forall fuel : nat,
      evaluate fuel LetDeclarations.script fresh_world
      = Some (Throw (ReferenceError "d"),
              mkWorld [VString "Oh well."] [] (realm_at_the_call empty_realm)))
  /\ lexical (realm_at_the_call empty_realm) !! "hello"
     = Some (Initialized (VString "Hello!"))
  /\ lexical (realm_at_the_call empty_realm) !! "c" = Some (Initialized VUndefined)
  /\ lexical (realm_at_the_call empty_realm) !! "d" = Some Uninitialized
  /\ (forall w : World Realm,
        lexical (store w) !! "d" = Some Uninitialized ->
        LetDeclarations.foo1 w = (Throw (ReferenceError "d"), w))
  /\ (forall (w : World Realm) (v : Value),
        lexical (store w) !! "d" = Some (Initialized v) ->
        LetDeclarations.foo1 w = (Normal v, w))
  /\ completes Interfaces.script
  /\ fst (ConstDeclarations.statements (mkWorld [] [] ConstDeclarations.kitty))
     = Normal tt
  /\ fst (Accessors.statements Accessors.start) = Normal 0.
Proof.
  split.
  { intros fuel. rewrite let_declarations_in by reflexivity. reflexivity. }
  split; [reflexivity|]. split; [reflexivity|]. split; [reflexivity|].
  split.
  { intros w H. unfold LetDeclarations.foo1, read. rewrite H. reflexivity. }
  split.
  { intros w v H. unfold LetDeclarations.foo1, read. rewrite H. reflexivity. }
  split.
  { exists 0, (mkWorld [VString "Size 10 Object"; VString "Size 10 Object"] []
                 (realm_of_interfaces empty_realm)).
    rewrite interfaces_in by reflexivity. reflexivity. }
  split; reflexivity.
Qed.

(** How each script of a run ended, and the console at the end. *)
Definition observed (fuel : nat) (l : list Script)
    : option (list (Completion unit) * list Value) :=
  match evaluate_all fuel l fresh_world with
  | Some (cs, w) => Some (cs, console w)
  | None => None
  end.

(** "Evaluation of distinct files commutes." *)
Definition commute (s1 s2 : Script) : Prop :=
  forall fuel : nat,
    option_map snd (observed fuel [s1; s2]) = option_map snd (observed fuel [s2; s1]).

(** "The result is the same whether or not any other file has been
    evaluated": how [s] ends is the same alone and after [other]. *)
Definition unaffected_by (s other : Script) : Prop :=
  forall (fuel : nat) (c : Completion unit) (w : World Realm),
    evaluate fuel other fresh_world = Some (c, w) ->
    option_map fst (evaluate fuel s w) = option_map fst (evaluate fuel s fresh_world).

(** C8, as stated, fails: interfaces.ts and let-declarations.ts both declare
    [d] at the top level.  Whichever runs second is rejected, so each order
    leaves a different console, and interfaces.ts, which reaches its end
    alone, does not after let-declarations.ts. *)
Lemma independence_counterexample :
  observed 11 [LetDeclarations.script; Interfaces.script]
  = Some ([Throw (ReferenceError "d"); Throw (SyntaxError "d")], [VString "Oh well."])
  /\ observed 11 [Interfaces.script; LetDeclarations.script]
     = Some ([Normal tt; Throw (SyntaxError "d")],
             [VString "Size 10 Object"; VString "Size 10 Object"])
  /\ ~ commute LetDeclarations.script Interfaces.script
  /\ ~ unaffected_by Interfaces.script LetDeclarations.script.
Proof.
  assert (H1 : observed 11 [LetDeclarations.script; Interfaces.script]
               = Some ([Throw (ReferenceError "d"); Throw (SyntaxError "d")],
                       [VString "Oh well."])) by (vm_compute; reflexivity).
  assert (H2 : observed 11 [Interfaces.script; LetDeclarations.script]
               = Some ([Normal tt; Throw (SyntaxError "d")],
                       [VString "Size 10 Object"; VString "Size 10 Object"]))
    by (vm_compute; reflexivity).
  split; [exact H1|]. split; [exact H2|]. split.
  - intros H. specialize (H 11). rewrite H1, H2 in H. discriminate H.
  - intros H.
    specialize (H 11 _ _ (let_declarations_in 11 fresh_world eq_refl)).
    rewrite (interfaces_in 11 fresh_world eq_refl) in H.
    rewrite (evaluate_rejected 11 Interfaces.script
               (mkWorld (console fresh_world ++ [VString "Oh well."]) (timers fresh_world)
                  (realm_at_the_call (store fresh_world))) "d" eq_refl) in H.
    discriminate H.
Qed.

(** C8, amended: interfaces.ts and let-declarations.ts are independent of
    the files whose top-level names they do not share.  In a realm in which none of its names is declared,
    interfaces.ts logs its two lines and reaches its end, and
    let-declarations.ts logs "Oh well." and stops at [foo1()], as each does
    alone; both leave the console as it was up to what they append, the
    timers, and every binding made by other files.  A script one of whose
    names is declared already is rejected with a SyntaxError and changes
    nothing. *)
Theorem scripts_with_new_names_run_as_alone (fuel : nat) (w : World Realm) :
  (first_conflict Interfaces.declarations (store w) = None ->
     evaluate fuel Interfaces.script w
     = Some (Normal tt,
             mkWorld (console w ++ [VString "Size 10 Object"; VString "Size 10 Object"])
               (timers w) (realm_of_interfaces (store w)))
     /\ keeps_other_bindings Interfaces.declarations (store w)
          (realm_of_interfaces (store w)))
  /\ (first_conflict LetDeclarations.declarations (store w) = None ->
        evaluate fuel LetDeclarations.script w
        = Some (Throw (ReferenceError "d"),
                mkWorld (console w ++ [VString "Oh well."]) (timers w)
                  (realm_at_the_call (store w)))
        /\ keeps_other_bindings LetDeclarations.declarations (store w)
             (realm_at_the_call (store w)))
  /\ (forall (s : Script) (n : string),
        first_conflict (declarations s) (store w) = Some n ->
        evaluate fuel s w = Some (Throw (SyntaxError n), w)).
Proof.
  split; [|split].
  - intros H. split; [exact (interfaces_in fuel w H) | apply interfaces_keeps].
  - intros H. split; [exact (let_declarations_in fuel w H) | apply let_declarations_keeps].
  - intros s n H. exact (evaluate_rejected fuel s w n H).
Qed.

(** A realm in which [var a = 10;], the first statement of
    var-declaration.ts, has run. *)
Definition realm_with_a : World Realm :=
  mkWorld [] [] (mkRealm ∅ {["a" := VNumber 10]}).

Lemma scripts_with_new_names_run_as_alone_witness :
  first_conflict Interfaces.declarations (store realm_with_a) = None
  /\ option_map fst (evaluate 0 Interfaces.script realm_with_a) = Some (Normal tt)
  /\ object (realm_of_interfaces (store realm_with_a)) !! "a" = Some (VNumber 10).
Proof.
  split; [reflexivity|].
  pose proof (scripts_with_new_names_run_as_alone 0 realm_with_a) as (Hrun & _).
  destruct (Hrun eq_refl) as (Heval & Hkeeps).
  split.
  - rewrite Heval. reflexivity.
  - destruct (Hkeeps "a") as (_ & Hobject).
    + cbn. rewrite !elem_of_cons, elem_of_nil.
      intros H. repeat destruct H as [H | H]; try discriminate H. exact H.
    + rewrite Hobject. reflexivity.
Defined.

End ScriptFacts.

(** * More of the snippets *)

(** ** sumMatrix, row by row *)

Module SumMatrixRows.

Import VarDeclaration.

(** The rows that [sumMatrix] adds up.  A turn of the outer loop at row [j]
    adds that row, and leaves the shared [i] at the length of the row; the
    update [i++] then makes the next turn start at row [length row + 1].
    [turns] bounds the number of turns. *)
Fixpoint rows_summed (turns : nat) (matrix : list (list number)) (j : nat)
    (acc : number) : option number :=
  match turns with
  | O => None
  | S turns' =>
      match matrix !! j with
      | Some row => rows_summed turns' matrix (S (length row)) (SumMatrix.add_row acc row)
      | None => Some acc
      end
  end.

(** One turn of the inner loop, with its update [i++]. *)
Definition inner_turn (row : list number) (l : Locals) : Run Locals :=
  match Some (Normal (set_sum (sum l + number_at row (i l))%float l)) with
  | Some (Normal l') => Some (Normal (set_i (S (i l')) l'))
  | stop => stop
  end.

Lemma inner_turn_adds (row : list number) (l : Locals) :
  inner_turn row l
  = Some (Normal (mkLocals (sum l + number_at row (i l))%float (S (i l)) (currentRow l))).
Proof. reflexivity. Qed.

Lemma inner_turns (rest : list number) : forall (done : list number) (fuel : nat) (l : Locals),
  i l = length done -> length rest < fuel ->
  while_ fuel (fun l => i l <? length (done ++ rest))%nat (inner_turn (done ++ rest)) l
  = Some (Normal (mkLocals (SumMatrix.add_row (sum l) rest) (length (done ++ rest))
                    (currentRow l))).
Proof.
  induction rest as [|x rest IH]; intros done fuel l Hi Hfuel;
    (destruct fuel as [|fuel]; [simpl in Hfuel; lia|]); cbn [while_].
  - rewrite app_nil_r, Hi, Nat.ltb_irrefl. destruct l; simpl in *; subst; reflexivity.
  - assert (Hlt : (i l <? length (done ++ x :: rest))%nat = true).
    { apply Nat.ltb_lt. rewrite Hi, length_app. simpl. lia. }
    rewrite Hlt, inner_turn_adds. unfold number_at.
    rewrite Hi, list_lookup_middle by reflexivity.
    replace (done ++ x :: rest)%list with ((done ++ [x]) ++ rest)%list
      by (rewrite <- app_assoc; reflexivity).
    rewrite IH.
    + reflexivity.
    + cbn [i]. rewrite length_app. simpl. lia.
    + simpl in Hfuel. lia.
Qed.

Lemma var_inner_loop_sums (fuel : nat) (row : list number) (l : Locals) :
  length row < fuel ->
  inner_loop fuel row l
  = Some (Normal (mkLocals (SumMatrix.add_row (sum l) row) (length row) (currentRow l))).
Proof.
  intros Hfuel. unfold inner_loop, for_var. fold (inner_turn row).
  exact (inner_turns row [] fuel (set_i 0 l) eq_refl Hfuel).
Qed.

(** A turn of the outer loop at a row that exists. *)
Lemma turn_sums_row (fuel : nat) (matrix : list (list number)) (l : Locals)
    (row : list number) :
  matrix !! i l = Some row -> length row < fuel ->
  SumMatrix.sumMatrix_turn fuel matrix l
  = Some (Normal (mkLocals (SumMatrix.add_row (sum l) row) (S (length row)) (Some row))).
Proof.
  intros Hrow Hfuel. unfold SumMatrix.sumMatrix_turn.
  cbn [set_currentRow currentRow i]. rewrite Hrow.
  rewrite var_inner_loop_sums by assumption. reflexivity.
Qed.

Definition returned (r : Run Locals) : Run number :=
  match r with
  | Some (Normal l) => Some (Normal (sum l))
  | Some (Throw e) => Some (Throw e)
  | None => None
  end.

Lemma sumMatrix_by_turns (fuel : nat) (matrix : list (list number)) :
  sumMatrix fuel matrix
  = returned (while_ fuel (fun l => i l <? length matrix)%nat
                (SumMatrix.sumMatrix_turn fuel matrix) (mkLocals 0%float 0 None)).
Proof. reflexivity. Qed.

Lemma outer_turns (fuel0 : nat) (matrix : list (list number)) :
  max_list_with length matrix < fuel0 ->
  forall (fuel : nat) (l : Locals),
    returned (while_ fuel (fun l => i l <? length matrix)%nat
                (SumMatrix.sumMatrix_turn fuel0 matrix) l)
    = option_map Normal (rows_summed fuel matrix (i l) (sum l)).
Proof.
  intros Hfuel0. induction fuel as [|fuel IH]; intros l; [reflexivity|].
  cbn [while_ rows_summed].
  destruct (matrix !! i l) as [row|] eqn:Hrow.
  - apply lookup_lt_Some in Hrow as Hlt. apply Nat.ltb_lt in Hlt. rewrite Hlt.
    pose proof (SumMatrix.row_length_le_max matrix (i l) row Hrow).
    rewrite (turn_sums_row fuel0 matrix l row Hrow) by lia.
    rewrite IH. reflexivity.
  - apply lookup_ge_None in Hrow. apply Nat.ltb_ge in Hrow. rewrite Hrow. reflexivity.
Qed.

(** X1: the shared counter makes [sumMatrix] jump.  Given fuel above every
    row length, it returns the sum of row 0, of the row at index [length
    (row 0) + 1], and so on from each summed row to the one [length row + 1]
    places down, until that index is past the last row; when that never
    happens it does not return. *)
Theorem sumMatrix_follows_row_lengths (matrix : list (list number)) (fuel : nat) :
  max_list_with length matrix < fuel ->
  sumMatrix fuel matrix = option_map Normal (rows_summed fuel matrix 0 0%float).
Proof.
  intros Hfuel. rewrite sumMatrix_by_turns.
  exact (outer_turns fuel matrix Hfuel fuel (mkLocals 0%float 0 None)).
Qed.

Lemma sumMatrix_follows_row_lengths_witness :
  sumMatrix 4 [[1]; [2]; [3; 4]]%float = Some (Normal 8%float).
Proof.
  rewrite (sumMatrix_follows_row_lengths [[1]; [2]; [3; 4]]%float 4).
  - reflexivity.
  - vm_compute. lia.
Defined.

Lemma sumMatrix_stops_after_first_row (row : list number) (rest : list (list number))
    (fuel : nat) :
  length rest <= length row -> length row < fuel -> 2 <= fuel ->
  sumMatrix fuel (row :: rest) = Some (Normal (SumMatrix.add_row 0%float row)).
Proof.
  intros Hrest Hrow Hfuel. rewrite sumMatrix_by_turns.
  destruct fuel as [|[|fuel]]; [lia | lia |].
  cbn [while_ i length Nat.ltb Nat.leb].
  rewrite (turn_sums_row _ (row :: rest) (mkLocals 0%float 0 None) row eq_refl Hrow).
  cbn [while_ i sum length].
  assert (Hstop : (S (length row) <=? length rest)%nat = false)
    by (apply Nat.leb_gt; lia).
  rewrite Hstop. reflexivity.
Qed.

(** X2: on a matrix whose first row has at least as many elements as there
    are rows after it (every square matrix, every matrix of one row),
    [sumMatrix] returns the sum of the first row and of nothing else. *)
Theorem sumMatrix_sums_first_row_only (row : list number) (rest : list (list number))
    (k : nat) :
  length rest <= length row ->
  sumMatrix (length row + 2 + k) (row :: rest)
  = Some (Normal (SumMatrix.add_row 0%float row)).
Proof.
  intros Hrest. apply sumMatrix_stops_after_first_row; lia.
Qed.

Lemma sumMatrix_sums_first_row_only_witness :
  sumMatrix 5 [[1; 2; 3]; [4; 5; 6]; [7; 8; 9]]%float = Some (Normal 6%float).
Proof.
  apply (sumMatrix_sums_first_row_only [1; 2; 3]%float [[4; 5; 6]; [7; 8; 9]]%float 0).
  simpl. lia.
Defined.

(** X3: [sumMatrix] and [sumMatrix1] agree on every matrix of at most one
    row: both return the sum of its elements. *)
Theorem sumMatrix_agrees_up_to_one_row (matrix : list (list number)) (k : nat) :
  length matrix <= 1 ->
  sumMatrix (SumMatrix.enough_fuel matrix + k) matrix
  = LetDeclarations.sumMatrix1 (SumMatrix.enough_fuel matrix + k) matrix
  /\ sumMatrix (SumMatrix.enough_fuel matrix + k) matrix
     = Some (Normal (SumMatrix.sum_of_all_elements matrix)).
Proof.
  intros Hlen. rewrite SumMatrix.sumMatrix1_computes.
  destruct matrix as [|row [|row' rest]]; [| |simpl in Hlen; lia].
  - split; reflexivity.
  - assert (H : sumMatrix (SumMatrix.enough_fuel [row] + k) [row]
                = Some (Normal (SumMatrix.add_row 0%float row))).
    { apply sumMatrix_stops_after_first_row; unfold SumMatrix.enough_fuel; simpl; lia. }
    split; exact H.
Qed.

Lemma sumMatrix_agrees_up_to_one_row_witness :
  sumMatrix 4 [[1; 2; 3]]%float = LetDeclarations.sumMatrix1 4 [[1; 2; 3]]%float.
Proof.
  apply (sumMatrix_agrees_up_to_one_row [[1; 2; 3]]%float 0). simpl. lia.
Defined.

Lemma stuck_at_row_1 (fuel0 : nat) (rest : list (list number)) : forall fuel l,
  i l = 1 ->
  while_ fuel (fun l => i l <? length ([] :: [] :: rest))%nat
    (SumMatrix.sumMatrix_turn fuel0 ([] :: [] :: rest)) l
  = None.
Proof.
  induction fuel as [|fuel IH]; intros l Hi; [reflexivity|].
  cbn [while_ length]. rewrite Hi. cbn [Nat.ltb Nat.leb].
  destruct fuel0 as [|fuel0].
  - unfold SumMatrix.sumMatrix_turn. rewrite Hi. reflexivity.
  - rewrite (turn_sums_row _ _ l []); [| rewrite Hi; reflexivity | simpl; lia].
    apply IH. reflexivity.
Qed.

(** X4: [sumMatrix] does not return on any matrix whose first two rows are
    empty: after row 0 the shared [i] is 1, and every turn at the empty row 1
    puts it back to 1.  No fuel is enough. *)
Theorem sumMatrix_loops_on_two_empty_rows (rest : list (list number)) (fuel : nat) :
  sumMatrix fuel ([] :: [] :: rest) = None.
Proof.
  rewrite sumMatrix_by_turns.
  destruct fuel as [|fuel]; [reflexivity|].
  cbn [while_ i]. change (0 <? length ([] :: [] :: rest))%nat with true. cbn iota.
  rewrite (turn_sums_row _ _ (mkLocals 0%float 0 None) []); [| reflexivity | simpl; lia].
  rewrite stuck_at_row_1; reflexivity.
Qed.

End SumMatrixRows.

(** ** Employee6: creation, and calls of the setter one after the other *)

Module EmployeeFacts.

Import Accessors AccessorFacts.

Lemma new_Employee6_allocates (w : World Store) :
  new_Employee6 w
  = (Normal (fresh (dom (heap (store w)))),
     mkWorld (console w) (timers w)
       (mkStore (passcode (store w))
          (<[fresh (dom (heap (store w))) := mkEmployee6 None]> (heap (store w))))).
Proof. reflexivity. Qed.

Lemma fresh_address_is_free (w : World Store) :
  heap (store w) !! fresh (dom (heap (store w))) = None.
Proof. apply not_elem_of_dom. apply is_fresh. Qed.

(** X5: [new Employee6()] never hands out the address of an object that
    exists; it leaves every existing object, the passcode and the console as
    they were; the getter of the new object reads undefined; and a second
    [new Employee6()] gives another object. *)
Theorem new_Employee6_is_fresh (w : World Store) :
  exists this : nat,
    fst (new_Employee6 w) = Normal this
    /\ heap (store w) !! this = None
    /\ (forall other : nat, other <> this ->
          heap (store (snd (new_Employee6 w))) !! other = heap (store w) !! other)
    /\ passcode (store (snd (new_Employee6 w))) = passcode (store w)
    /\ console (snd (new_Employee6 w)) = console w
    /\ fst (get_fullName this (snd (new_Employee6 w))) = Normal None
    /\ fst (new_Employee6 (snd (new_Employee6 w))) <> Normal this.
Proof.
  exists (fresh (dom (heap (store w)))).
  rewrite !new_Employee6_allocates. cbn [fst snd store heap passcode console].
  pose proof (fresh_address_is_free w) as Hfree.
  repeat split.
  - exact Hfree.
  - intros other Hother. apply lookup_insert_ne. congruence.
  - rewrite get_fullName_reads. cbn [fst store heap].
    rewrite lookup_insert_eq. reflexivity.
  - intros H. injection H as H.
    pose proof (is_fresh (dom (<[fresh (dom (heap (store w))) := mkEmployee6 None]>
                                 (heap (store w))))) as Hnew.
    rewrite H in Hnew. apply Hnew. rewrite dom_insert_L. set_solver.
Qed.

(** X6: the statements of the file, for any passcode and any objects made
    before.  With the passcode "secret passcode" they create an employee,
    name it and log the name; with any other passcode they create the
    employee, log the error, leave it without a name and log no name. *)
Theorem statements_log_name_or_error (w : World Store) :
  let this := fresh (dom (heap (store w))) in
  fst (statements w) = Normal this
  /\ (passcode (store w) = secret ->
        console (snd (statements w)) = (console w ++ [VString "Ashwani Luhaniwal"])%list
        /\ heap (store (snd (statements w)))
           = <[this := mkEmployee6 (Some "Ashwani Luhaniwal")]> (heap (store w)))
  /\ (passcode (store w) <> secret ->
        console (snd (statements w))
        = (console w ++ [VString "Error: Unauthorized update of employee!"])%list
        /\ heap (store (snd (statements w)))
           = <[this := mkEmployee6 None]> (heap (store w))).
Proof.
  intros this. subst this.
  unfold statements, mbind, Eff_bind. rewrite new_Employee6_allocates.
  set (this := fresh (dom (heap (store w)))).
  set (w1 := mkWorld (console w) (timers w)
               (mkStore (passcode (store w)) (<[this := mkEmployee6 None]> (heap (store w))))).
  destruct (authorised w) eqn:Hauth.
  - rewrite (set_fullName_authorised this _ w1 Hauth).
    apply authorised_iff in Hauth.
    rewrite !get_fullName_reads. subst w1. cbn [fst snd store heap console passcode timers].
    rewrite alter_insert_eq, lookup_insert_eq. cbn.
    rewrite !get_fullName_reads. cbn [fst snd store heap console passcode timers].
    rewrite lookup_insert_eq. cbn.
    split; [reflexivity|]. split; [|congruence].
    intros _. split; reflexivity.
  - rewrite (set_fullName_unauthorised this _ w1 Hauth).
    apply unauthorised_iff in Hauth.
    rewrite !get_fullName_reads. subst w1. cbn [fst snd store heap console passcode timers].
    rewrite lookup_insert_eq. cbn.
    split; [reflexivity|]. split; [congruence|].
    intros _. split; reflexivity.
Qed.

Lemma statements_log_name_or_error_witness :
  console (snd (statements (mkWorld [] [] (mkStore "guess" ∅))))
  = [VString "Error: Unauthorized update of employee!"].
Proof.
  pose proof (statements_log_name_or_error (mkWorld [] [] (mkStore "guess" ∅)))
    as (_ & _ & Hwrong).
  destruct Hwrong as (Hconsole & _); [discriminate|].
  exact Hconsole.
Defined.

(** X7: calls of the setter compose.  Two authorised calls on one object
    leave what the second call alone leaves (the last name wins); calls on
    two different objects can be swapped, whatever the passcode. *)
Theorem set_fullName_composes (w : World Store) (this other : nat) (a b : string) :
  (authorised w = true ->
     snd (set_fullName this b (snd (set_fullName this a w)))
     = snd (set_fullName this b w))
  /\ (this <> other ->
        snd (set_fullName other b (snd (set_fullName this a w)))
        = snd (set_fullName this a (snd (set_fullName other b w)))).
Proof.
  split.
  - intros Hauth.
    rewrite (set_fullName_authorised this a w Hauth). cbn [snd].
    rewrite !set_fullName_authorised by exact Hauth. cbn [snd console timers store passcode heap].
    do 2 f_equal. apply map_eq. intros k.
    destruct (decide (k = this)) as [->|Hk].
    + rewrite !lookup_alter_eq. destruct (heap (store w) !! this); reflexivity.
    + rewrite !lookup_alter_ne by congruence. reflexivity.
  - intros Hne. destruct (authorised w) eqn:Hauth.
    + rewrite (set_fullName_authorised this a w Hauth),
        (set_fullName_authorised other b w Hauth). cbn [snd].
      rewrite !set_fullName_authorised by exact Hauth.
      cbn [snd console timers store passcode heap].
      do 2 f_equal. apply map_eq. intros k.
      destruct (decide (k = this)) as [Hk1|Hk1]; destruct (decide (k = other)) as [Hk2|Hk2];
        subst; try congruence;
        repeat first [rewrite lookup_alter_eq | rewrite lookup_alter_ne by congruence];
        reflexivity.
    + rewrite (set_fullName_unauthorised this a w Hauth),
        (set_fullName_unauthorised other b w Hauth). cbn [snd].
      rewrite !set_fullName_unauthorised by exact Hauth.
      reflexivity.
Qed.

Lemma set_fullName_composes_witness :
  let w := snd (new_Employee6 start) in
  fst (get_fullName 0 (snd (set_fullName 0 "Bob" (snd (set_fullName 0 "Eve" w)))))
  = Normal (Some "Bob").
Proof.
  pose proof (set_fullName_composes (snd (new_Employee6 start)) 0 1 "Eve" "Bob")
    as (Hlast & _).
  cbv zeta. rewrite (Hlast eq_refl). reflexivity.
Defined.

End EmployeeFacts.

(** ** interfaces.ts: the shape of arguments and results *)

Module ShapeFacts.

Import Interfaces.

(** X8: whatever the configuration, the square that [createSquare] returns
    has a colour that is not the empty string: an empty [config.color] is
    falsy and "white" stays. *)
Theorem createSquare_color_not_empty (config : SquareConfig.t) :
  Square.color (createSquare config) <> ""
  /\ ToBoolean_string (Square.color (createSquare config)) = true.
Proof.
  destruct config as [[[|c color]|] [width|]]; unfold createSquare;
    cbn [SquareConfig.color SquareConfig.width ToBoolean_string];
    try destruct (ToBoolean_number width); split; (discriminate || reflexivity).
Qed.

Lemma property_skips_other_names (name other : string) (v : Value)
    (before after : list (string * Value)) :
  other <> name ->
  own_property name (before ++ (other, v) :: after)
  = own_property name (before ++ after).
Proof.
  intros Hother. apply String.eqb_neq in Hother.
  unfold own_property. induction before as [|[k x] before IH]; cbn [app List.find fst].
  - rewrite Hother. reflexivity.
  - destruct (String.eqb k name); [reflexivity | exact IH].
Qed.

Lemma property_missing (name : string) (properties : list (string * Value)) :
  Forall (fun p => fst p <> name) properties ->
  own_property name properties = VUndefined.
Proof.
  intros H. unfold own_property. induction H as [|[k x] properties Hk _ IH]; [reflexivity|].
  cbn [List.find fst]. apply String.eqb_neq in Hk. cbn [fst] in Hk. rewrite Hk. exact IH.
Qed.

(** X9: [printLabel] looks at the property [label] and at nothing else.  A
    property of another name, anywhere in the object, does not change what is
    logged; [printLabel] and [printLabel1] log the same; an object with no
    [label] makes them log undefined, without throwing. *)
Theorem printLabel_reads_label_only (S : Type) (w : World S) (other : string) (v : Value)
    (before after : list (string * Value)) :
  other <> "label" ->
  printLabel (VObject (before ++ (other, v) :: after)) w
  = printLabel (VObject (before ++ after)) w
  /\ printLabel1 (VObject (before ++ (other, v) :: after)) w
     = printLabel (VObject (before ++ (other, v) :: after)) w
  /\ (Forall (fun p => fst p <> "label") (before ++ after) ->
        printLabel (VObject (before ++ (other, v) :: after)) w
        = (Normal tt, mkWorld (console w ++ [VUndefined]) (timers w) (store w))).
Proof.
  intros Hother. unfold printLabel, printLabel1, label_of.
  rewrite (property_skips_other_names "label" other v before after Hother).
  split; [reflexivity|]. split; [reflexivity|].
  intros Hmissing. rewrite (property_missing "label" _ Hmissing). reflexivity.
Qed.

Lemma printLabel_reads_label_only_witness :
  printLabel size_10_object fresh_world
  = printLabel (VObject [("label", VString "Size 10 Object")]) fresh_world.
Proof.
  apply (printLabel_reads_label_only Realm fresh_world "size" (VNumber 10) []
           [("label", VString "Size 10 Object")]).
  discriminate.
Defined.

End ShapeFacts.

(** ** The timer loop, with timers pending already *)

Module TimerLoopFacts.

Import LetDeclarations TimerFacts.

Lemma enqueue_adds (t : Timer) (pending : list Timer) :
  enqueue t pending ≡ₚ t :: pending.
Proof.
  induction pending as [|t' pending IH]; cbn [enqueue]; [reflexivity|].
  destruct (PrimFloat.ltb (delay t) (delay t')); [reflexivity|].
  rewrite IH. apply Permutation_swap.
Qed.

(** The pending timers once [ts] have been set, one after the other. *)
Definition set_all (ts pending : list Timer) : list Timer :=
  foldl (fun pending t => enqueue t pending) pending ts.

Lemma set_all_adds (ts pending : list Timer) : set_all ts pending ≡ₚ ts ++ pending.
Proof.
  unfold set_all. revert pending.
  induction ts as [|t ts IH]; intros pending; cbn [foldl app]; [reflexivity|].
  rewrite IH, enqueue_adds. symmetry. apply Permutation_middle.
Qed.

Lemma timeout_loop_sets_ten (k : nat) (w : World Realm) :
  timeout_loop (11 + k) w
  = Some (Normal tt, mkWorld (console w) (set_all ten_timers (timers w)) (store w)).
Proof. reflexivity. Qed.

(** X10: whatever timers are pending when the loop starts, the loop runs to
    its end, logs nothing, leaves the bindings alone, keeps every pending
    timer and adds its ten, no more. *)
Theorem timeout_loop_adds_ten_timers (k : nat) (w : World Realm) :
  exists w' : World Realm,
    timeout_loop (11 + k) w = Some (Normal tt, w')
    /\ console w' = console w
    /\ store w' = store w
    /\ timers w' ≡ₚ ten_timers ++ timers w.
Proof.
  exists (mkWorld (console w) (set_all ten_timers (timers w)) (store w)).
  split; [apply timeout_loop_sets_ten|].
  split; [reflexivity|]. split; [reflexivity|].
  apply set_all_adds.
Qed.

End TimerLoopFacts.

(** ** var-declaration.ts, the rest of the file *)

Module VarDeclarationScript.

(** function f() { var message = "Hello, world!"; return message; } *)
Definition f : string :=
  let message := "Hello, world!" in
  message.

(** function fu() { var a = 10; return function g() { ... } }: the function
    returned keeps the [a] of the call of [fu] that made it. *)
Definition fu (_ : unit) : unit -> number :=
  let a := 10%float in
  fun _ =>
    let b := (a + 1)%float in
    b.

(** The variables of [fun], hoisted; its inner function [g] reads the [a]
    of the call at the moment it is called. *)
Record FunLocals : Type := mkFunLocals { a : option number; b : option number }.

Definition fun_g (l : FunLocals) : option number := a l.

(** function fun() { var a = 1; a = 2; var b = g(); a = 3; return b;
                     function g() { return a; } } *)
Definition fun_ : option number :=
  let l := mkFunLocals None None in
  let l := mkFunLocals (Some 1%float) (b l) in
  let l := mkFunLocals (Some 2%float) (b l) in
  let l := mkFunLocals (a l) (fun_g l) in
  let l := mkFunLocals (Some 3%float) (b l) in
  b l.

(** function foo(shouldInitialize: boolean): [x] is declared for the whole
    body, and undefined until the assignment runs. *)
Definition foo (shouldInitialize : bool) : option number :=
  let x : option number := None in
  let x := if shouldInitialize then Some 10%float else x in
  x.

Definition declarations : Declarations :=
  mkDeclarations [] ["a"; "g"] ["f"; "fu"; "fun"; "foo"; "sumMatrix"].

(** var a = 10;  var g = fu();  g();  fun();  foo(true);  foo(false); *)
Definition statements : list Statement := [
  stmt (assign "a" (VNumber 10));
  stmt (let g := fu tt in assign "g" (VFunction "g"));
  stmt (_ ← read "g"; let _ := fu tt tt in mret tt);
  stmt (let _ := fun_ in mret tt);
  stmt (let _ := foo true in mret tt);
  stmt (let _ := foo false in mret tt)
].

Definition script : Script := mkScript declarations (fun _ => statements).

End VarDeclarationScript.

Module ScriptComposition.

Import ScriptFacts.

Lemma not_lexically_declared (d : Declarations) (r : Realm) (name : string) :
  first_conflict d r = None ->
  In name (varNames d ++ funNames d) ->
  lexical r !! name = None.
Proof.
  unfold first_conflict. intros H Hin.
  destruct (List.find (declared r) (lexNames d)); [discriminate|].
  pose proof (find_none _ _ H name Hin) as Hname.
  unfold lexically_declared in Hname. apply bool_decide_eq_false in Hname.
  apply eq_None_not_Some. exact Hname.
Qed.

Definition realm_of_var_declaration (r : Realm) : Realm :=
  let r := declare VarDeclarationScript.declarations r in
  mkRealm (lexical r) (<["g" := VFunction "g"]> (<["a" := VNumber 10]> (object r))).

Lemma assign_var (name : string) (v : Value) (w : World Realm) :
  lexical (store w) !! name = None ->
  assign name v w
  = (Normal tt,
     mkWorld (console w) (timers w)
       (mkRealm (lexical (store w)) (<[name := v]> (object (store w))))).
Proof. intros H. unfold assign. rewrite H. reflexivity. Qed.

Lemma read_var (name : string) (v : Value) (w : World Realm) :
  lexical (store w) !! name = None -> object (store w) !! name = Some v ->
  read name w = (Normal v, w).
Proof. intros H1 H2. unfold read. rewrite H1, H2. reflexivity. Qed.

Lemma var_declaration_in (fuel : nat) (w : World Realm) :
  first_conflict VarDeclarationScript.declarations (store w) = None ->
  evaluate fuel VarDeclarationScript.script w
  = Some (Normal tt,
          mkWorld (console w) (timers w) (realm_of_var_declaration (store w))).
Proof.
  intros H. unfold evaluate.
  cbn [VarDeclarationScript.script declarations statements].
  rewrite (instantiate_new _ _ H).
  pose proof (not_lexically_declared _ _ "a" H) as Ha.
  pose proof (not_lexically_declared _ _ "g" H) as Hg.
  cbn [VarDeclarationScript.declarations varNames funNames app] in Ha, Hg.
  specialize (Ha ltac:(simpl; tauto)). specialize (Hg ltac:(simpl; tauto)).
  unfold realm_of_var_declaration, set_store.
  set (r0 := declare VarDeclarationScript.declarations (store w)).
  assert (Hlex : lexical r0 = lexical (store w)) by reflexivity.
  clearbody r0.
  unfold VarDeclarationScript.statements. cbn [run_statements]. unfold stmt.
  rewrite assign_var by (cbn [store]; rewrite Hlex; exact Ha).
  cbn zeta. rewrite assign_var by (cbn [store lexical]; rewrite Hlex; exact Hg).
  unfold mbind, Eff_bind.
  rewrite (read_var "g" (VFunction "g"));
    [| cbn [store lexical]; rewrite Hlex; exact Hg
     | cbn [store object]; apply lookup_insert_eq].
  cbn [store console timers lexical object]. reflexivity.
Qed.

Lemma var_declaration_keeps_lexical (r : Realm) :
  lexical (realm_of_var_declaration r) = lexical r.
Proof. reflexivity. Qed.

Lemma var_declaration_still_new (r : Realm) :
  first_conflict VarDeclarationScript.declarations r = None ->
  first_conflict VarDeclarationScript.declarations (realm_of_var_declaration r) = None.
Proof.
  unfold first_conflict, lexically_declared.
  cbn [VarDeclarationScript.declarations lexNames List.find].
  change (lexical (realm_of_var_declaration r)) with (lexical r).
  intros H. exact H.
Qed.

Lemma let_declarations_taken (r : Realm) :
  first_conflict LetDeclarations.declarations (realm_at_the_call r) = Some "hello".
Proof.
  unfold first_conflict, declared, lexically_declared, realm_at_the_call, declare.
  cbn [LetDeclarations.declarations lexNames foldr lexical List.find].
  rewrite lookup_insert_ne by discriminate. rewrite lookup_insert_eq.
  reflexivity.
Qed.

Lemma interfaces_taken (r : Realm) :
  first_conflict Interfaces.declarations (realm_of_interfaces r) = Some "myObj".
Proof.
  unfold first_conflict, declared, lexically_declared, realm_of_interfaces, declare.
  cbn [Interfaces.declarations lexNames foldr foldl lexical List.find fst snd].
  rewrite !lookup_insert_ne by discriminate. rewrite lookup_insert_eq.
  reflexivity.
Qed.

(** X11: a file of [var] and function declarations can be evaluated again,
    a file of [let] declarations cannot.  In a realm where none of its names
    is a lexical name, var-declaration.ts runs to its end without logging,
    leaves [a] at 10, and run a second time does the same; interfaces.ts and
    let-declarations.ts, evaluated a second time in the realm they left, are
    rejected with a SyntaxError for their first name, and change nothing. *)
Theorem var_scripts_run_again_let_scripts_do_not (fuel : nat) (w : World Realm) :
  (first_conflict VarDeclarationScript.declarations (store w) = None ->
     exists w1 w2 : World Realm,
       evaluate fuel VarDeclarationScript.script w = Some (Normal tt, w1)
       /\ evaluate fuel VarDeclarationScript.script w1 = Some (Normal tt, w2)
       /\ console w2 = console w
       /\ object (store w1) !! "a" = Some (VNumber 10)
       /\ object (store w2) !! "a" = Some (VNumber 10)
       /\ lexical (store w2) = lexical (store w))
  /\ (first_conflict LetDeclarations.declarations (store w) = None ->
        exists (c : Completion unit) (w1 : World Realm),
          evaluate fuel LetDeclarations.script w = Some (c, w1)
          /\ evaluate fuel LetDeclarations.script w1
             = Some (Throw (SyntaxError "hello"), w1))
  /\ (first_conflict Interfaces.declarations (store w) = None ->
        exists (c : Completion unit) (w1 : World Realm),
          evaluate fuel Interfaces.script w = Some (c, w1)
          /\ evaluate fuel Interfaces.script w1
             = Some (Throw (SyntaxError "myObj"), w1)).
Proof.
  split; [|split].
  - intros H. eexists. eexists.
    split; [exact (var_declaration_in fuel w H)|].
    split.
    { apply var_declaration_in. cbn [store]. apply var_declaration_still_new. exact H. }
    cbn [console store].
    split; [reflexivity|].
    split; [|split].
    + unfold realm_of_var_declaration. cbn [object].
      rewrite lookup_insert_ne by discriminate. apply lookup_insert_eq.
    + unfold realm_of_var_declaration at 1. cbn [object].
      rewrite lookup_insert_ne by discriminate. apply lookup_insert_eq.
    + reflexivity.
  - intros H. eexists. eexists.
    split; [exact (let_declarations_in fuel w H)|].
    apply evaluate_rejected. cbn [store LetDeclarations.script declarations].
    apply let_declarations_taken.
  - intros H. eexists. eexists.
    split; [exact (interfaces_in fuel w H)|].
    apply evaluate_rejected. cbn [store Interfaces.script declarations].
    apply interfaces_taken.
Qed.

Lemma var_scripts_run_again_let_scripts_do_not_witness :
  exists w1 : World Realm,
    evaluate 0 LetDeclarations.script fresh_world
    = Some (Throw (ReferenceError "d"), w1)
    /\ evaluate 0 LetDeclarations.script w1 = Some (Throw (SyntaxError "hello"), w1).
Proof.
  destruct (var_scripts_run_again_let_scripts_do_not 0 fresh_world) as (_ & Hlet & _).
  destruct (Hlet eq_refl) as (c & w1 & H1 & H2).
  exists w1. split; [|exact H2].
  rewrite H1. rewrite (let_declarations_in 0 fresh_world eq_refl) in H1.
  injection H1 as <- _. reflexivity.
Defined.

End ScriptComposition.

(** ** basic-types.ts: enums, strings, the tuple, the loop that never ends *)

Module BasicTypesValues.

(** *** Enums *)

(** How the members of an enum are numbered: a member with an initialiser
    has that number; a member without one has the number of the member
    before it plus 1, and 0 when it is the first. *)
Fixpoint number_members (next : number) (members : list (string * option number))
    : list (string * number) :=
  match members with
  | [] => []
  | (name, initialiser) :: rest =>
      let n := match initialiser with Some n => n | None => next end in
      (name, n) :: number_members (n + 1)%float rest
  end.

Definition enum (members : list (string * option number)) : list (string * number) :=
  number_members 0%float members.

(** Two numbers that are the same property key. *)
Definition same_key (a b : number) : bool :=
  PrimFloat.eqb a b || (PrimFloat.is_nan a && PrimFloat.is_nan b).

(** [E.name] *)
Definition value_of (E : list (string * number)) (name : string) : option number :=
  snd <$> List.find (fun m => String.eqb (fst m) name) E.

(** [E[n]], the reverse mapping: the name of the member numbered [n], the
    last one if several are. *)
Definition name_of (E : list (string * number)) (n : number) : option string :=
  fst <$> List.find (fun m => same_key (snd m) n) (rev E).

(** enum Color { Red, Green, Blue } *)
Definition Color : list (string * number) :=
  enum [("Red", None); ("Green", None); ("Blue", None)].
(** enum Color1 { Red = 1, Green, Blue } *)
Definition Color1 : list (string * number) :=
  enum [("Red", Some 1%float); ("Green", None); ("Blue", None)].
(** enum Color2 { Red = 1, Green = 2, Blue = 4 } *)
Definition Color2 : list (string * number) :=
  enum [("Red", Some 1%float); ("Green", Some 2%float); ("Blue", Some 4%float)].
(** enum Color3 { Red = 1, Green, Blue } *)
Definition Color3 : list (string * number) :=
  enum [("Red", Some 1%float); ("Green", None); ("Blue", None)].

(** let c: Color = Color.Green;  and so on *)
Definition c : option number := value_of Color "Green".
Definition c1 : option number := value_of Color1 "Green".
Definition c2 : option number := value_of Color2 "Green".
(** let colorName: string = Color3[2]; *)
Definition colorName : option string := name_of Color3 2%float.

(** *** The loop that never ends *)

(** function infiniteLoop(): never { while (true) { } } *)
Definition infiniteLoop (fuel : nat) : Run unit :=
  while_ fuel (fun _ : unit => true) (fun s => Some (Normal s)) tt.

(** *** Strings and the tuple *)

Section Strings.

(** How a number is written when it is put into a string.  The conversion
    is the runtime's; it is taken as given. *)
Variable Number_toString : number -> string.

Definition fullName : string := "Ashwani Luhaniwal".
Definition age : number := 37%float.

Definition newline : string := String (Ascii.ascii_of_nat 10) EmptyString.

(** let sentence: string = `Hello, my name is ${ fullName }.

    I'll be ${ age + 1 } years old next month.`; *)
Definition sentence : string :=
  "Hello, my name is " ++ fullName ++ "." ++ newline ++ newline
  ++ "I'll be " ++ Number_toString (age + 1)%float ++ " years old next month.".

(** let sentence1: string = "Hello , my name is " + fullName + ".\n\n" +
        "I'll be " + (age + 1) + " years old next month."; *)
Definition sentence1 : string :=
  (((("Hello , my name is " ++ fullName) ++ "." ++ newline ++ newline)
    ++ "I'll be ") ++ Number_toString (age + 1)%float) ++ " years old next month.".

(** What an element of [x: [string, number]] can be at run time. *)
Inductive Element : Type :=
| EString (s : string)
| ENumber (n : number)
| EUndefined.

(** An array at run time: the elements at its array indices, which are the
    integers from 0 to 2^32 - 2, and the properties whose key is a larger
    integer, which do not count for its length. *)
Record Tuple : Type := mkTuple {
  elements : list Element;
  beyond : gmap N Element
}.

Definition index_limit : N := 4294967295%N.

(** [x.length] *)
Definition tuple_length (x : Tuple) : N := N.of_nat (length (elements x)).

(** [x[i]]: undefined at a hole, past the end, and at a key never written. *)
Definition element_at (x : Tuple) (i : N) : Element :=
  if (i <? index_limit)%N then
    match elements x !! N.to_nat i with Some e => e | None => EUndefined end
  else
    match beyond x !! i with Some e => e | None => EUndefined end.

(** [x[i] = e]: a write at an array index past the end makes the array that
    long, with holes in between; a write at a larger key sets a property and
    leaves the length as it is. *)
Definition set_element (i : N) (e : Element) (x : Tuple) : Tuple :=
  if (i <? index_limit)%N then
    if (i <? tuple_length x)%N then mkTuple (<[N.to_nat i := e]> (elements x)) (beyond x)
    else mkTuple
           (elements x ++ replicate (N.to_nat (i - tuple_length x)) EUndefined ++ [e])
           (beyond x)
  else mkTuple (elements x) (<[i := e]> (beyond x)).

(** [e.substr(start)], for [start] not negative. *)
Definition substr (start : nat) (e : Element) : Completion string :=
  match e with
  | EString s => Normal (substring start (String.length s - start) s)
  | ENumber _ => Throw (TypeError "substr")
  | EUndefined => Throw (TypeError "substr")
  end.

(** [e.toString()] *)
Definition toString (e : Element) : Completion string :=
  match e with
  | EString s => Normal s
  | ENumber n => Normal (Number_toString n)
  | EUndefined => Throw (TypeError "toString")
  end.

Definition log_string (c : Completion string) : Eff Tuple unit :=
  match c with
  | Normal s => console_log (VString s)
  | Throw e => throw e
  end.

(** x = ["hello", 10];
    console.log(x[0].substr(1));
    x[3] = "world";
    console.log(x[5].toString()); *)
Definition tuple_statements : Eff Tuple unit :=
  modify_store (fun _ => mkTuple [EString "hello"; ENumber 10%float] ∅) ;;
  x ← get_store;
  log_string (substr 1 (element_at x 0)) ;;
  modify_store (set_element 3 (EString "world")) ;;
  x ← get_store;
  log_string (toString (element_at x 5)).

End Strings.

End BasicTypesValues.

Module BasicTypesFacts.

Import BasicTypesValues.

Definition round_trips (E : list (string * number)) : Prop :=
  Forall (fun m => name_of E (snd m) = Some (fst m) /\ value_of E (fst m) = Some (snd m)) E.

(** X12: in each of the four colour enums, the number of a member leads back
    to the name of that member, and the name to the number.  [Color] counts
    from 0, [Color1] and [Color3] from 1, [Color2] is 1, 2, 4; so [c] is 1,
    [c1] and [c2] are 2, and [colorName] is "Green". *)
Theorem colour_enums_round_trip :
  round_trips Color /\ round_trips Color1 /\ round_trips Color2 /\ round_trips Color3
  /\ Color = [("Red", 0); ("Green", 1); ("Blue", 2)]%float
  /\ Color1 = [("Red", 1); ("Green", 2); ("Blue", 3)]%float
  /\ Color3 = Color1
  /\ Color2 = [("Red", 1); ("Green", 2); ("Blue", 4)]%float
  /\ c = Some 1%float /\ c1 = Some 2%float /\ c2 = Some 2%float
  /\ colorName = Some "Green".
Proof.
  unfold round_trips.
  repeat split; try reflexivity; repeat constructor.
Qed.

(** X13: [infiniteLoop] never returns and never throws: no fuel is enough. *)
Theorem infiniteLoop_never_returns (fuel : nat) : infiniteLoop fuel = None.
Proof.
  unfold infiniteLoop. induction fuel as [|fuel IH]; [reflexivity|].
  cbn [while_]. exact IH.
Qed.

(** X14: [sentence1] is not [sentence], however numbers are written: the
    concatenation has a space before the comma that the template string has
    not.  From "Hello" on, but for that space, the two are the same. *)
Theorem sentence1_has_a_space_more (Number_toString : number -> string) :
  sentence Number_toString <> sentence1 Number_toString
  /\ exists rest : string,
       sentence Number_toString = "Hello" ++ rest
       /\ sentence1 Number_toString = "Hello " ++ rest.
Proof.
  split.
  - unfold sentence, sentence1. cbn [append fullName]. intros H. discriminate H.
  - exists (", my name is " ++ fullName ++ "." ++ newline ++ newline
            ++ "I'll be " ++ Number_toString (age + 1)%float ++ " years old next month.").
    split; reflexivity.
Qed.

Lemma element_past_the_end (x : Tuple) (j : N) :
  (tuple_length x <= j)%N -> (j < index_limit)%N -> element_at x j = EUndefined.
Proof.
  intros Hj Hlimit. unfold element_at. apply N.ltb_lt in Hlimit. rewrite Hlimit.
  rewrite lookup_ge_None_2; [reflexivity|]. unfold tuple_length in Hj. lia.
Qed.

Lemma length_set_element (i : N) (e : Element) (x : Tuple) :
  (i < index_limit)%N ->
  tuple_length (set_element i e x) = N.max (tuple_length x) (i + 1).
Proof.
  intros Hlimit. unfold set_element. apply N.ltb_lt in Hlimit. rewrite Hlimit.
  destruct (i <? tuple_length x)%N eqn:Hi; unfold tuple_length in *; cbn [elements].
  - apply N.ltb_lt in Hi. rewrite length_insert. lia.
  - apply N.ltb_ge in Hi. rewrite !length_app, length_replicate. simpl. lia.
Qed.

Lemma element_read_back (i : N) (e : Element) (x : Tuple) :
  element_at (set_element i e x) i = e.
Proof.
  unfold element_at. destruct (i <? index_limit)%N eqn:Hlimit;
    unfold set_element; rewrite Hlimit.
  - destruct (i <? tuple_length x)%N eqn:Hi; unfold tuple_length in *; cbn [elements].
    + apply N.ltb_lt in Hi. rewrite list_lookup_insert_eq by lia. reflexivity.
    + apply N.ltb_ge in Hi.
      rewrite lookup_app_r by lia.
      rewrite lookup_app_r by (rewrite length_replicate; lia).
      rewrite length_replicate.
      replace (N.to_nat i - length (elements x)
               - N.to_nat (i - N.of_nat (length (elements x)))) with 0 by lia.
      reflexivity.
  - cbn [beyond]. rewrite lookup_insert_eq. reflexivity.
Qed.

(** X15: the tuple of basic-types.ts.  A write at [i] is read back at [i].
    When [i] is an array index (below 2^32 - 1) the write makes the tuple at
    least [i + 1] long, with holes between the old end and [i]; at a larger
    key it leaves the length as it is.  A read at an array index at or past
    the end is undefined, and [toString] of it throws a TypeError.  So the
    four statements log "ello" and then stop at [x[5].toString()]: after
    [x[3] = "world"] the tuple is four long. *)
Theorem tuple_grows_with_holes (Number_toString : number -> string)
    (i : N) (e : Element) (x : Tuple) :
  element_at (set_element i e x) i = e
  /\ ((i < index_limit)%N ->
        tuple_length (set_element i e x) = N.max (tuple_length x) (i + 1)
        /\ (forall j : N, (tuple_length x <= j)%N -> (j < i)%N ->
              element_at (set_element i e x) j = EUndefined))
  /\ ((index_limit <= i)%N ->
        tuple_length (set_element i e x) = tuple_length x
        /\ elements (set_element i e x) = elements x)
  /\ (forall j : N, (tuple_length x <= j)%N -> (j < index_limit)%N ->
        element_at x j = EUndefined
        /\ toString Number_toString (element_at x j) = Throw (TypeError "toString"))
  /\ (forall w : World Tuple,
        tuple_statements Number_toString w
        = (Throw (TypeError "toString"),
           mkWorld (console w ++ [VString "ello"]) (timers w)
             (mkTuple [EString "hello"; ENumber 10%float; EUndefined; EString "world"] ∅))).
Proof.
  split; [apply element_read_back|].
  split; [|split; [|split]].
  - intros Hlimit. split; [apply length_set_element; exact Hlimit|].
    intros j Hj Hji. unfold set_element, element_at.
    assert (Hjl : (j <? index_limit)%N = true) by (apply N.ltb_lt; lia).
    assert (Hi : (i <? tuple_length x)%N = false) by (apply N.ltb_ge; lia).
    apply N.ltb_lt in Hlimit. rewrite Hlimit, Hi, Hjl. cbn [elements].
    unfold tuple_length in *.
    rewrite lookup_app_r by lia.
    rewrite lookup_app_l by (rewrite length_replicate; lia).
    rewrite lookup_replicate_2 by lia. reflexivity.
  - intros Hlimit. unfold set_element.
    assert (Hi : (i <? index_limit)%N = false) by (apply N.ltb_ge; exact Hlimit).
    rewrite Hi. split; reflexivity.
  - intros j Hj Hlimit. rewrite (element_past_the_end x j Hj Hlimit). split; reflexivity.
  - intros w. reflexivity.
Qed.

Lemma tuple_grows_with_holes_witness :
  let x := mkTuple [EString "hello"; ENumber 10%float] ∅ in
  tuple_length (set_element 3 (EString "world") x) = 4%N
  /\ element_at (set_element 3 (EString "world") x) 2 = EUndefined
  /\ tuple_length (set_element 4294967295 (EString "world") x) = 2%N.
Proof.
  pose proof (tuple_grows_with_holes (fun _ => "") 3 (EString "world")
                (mkTuple [EString "hello"; ENumber 10%float] ∅)) as (_ & Hin & _).
  pose proof (tuple_grows_with_holes (fun _ => "") 4294967295 (EString "world")
                (mkTuple [EString "hello"; ENumber 10%float] ∅)) as (_ & _ & Hout & _).
  destruct (Hin eq_refl) as (Hlength & Hholes).
  destruct (Hout ltac:(discriminate)) as (Hsame & _).
  cbv zeta. split; [rewrite Hlength; reflexivity|].
  split; [apply Hholes; [discriminate | reflexivity]|].
  rewrite Hsame. reflexivity.
Defined.

End BasicTypesFacts.

(** ** Rows are read in range *)

Module InRange.

Definition throws {A} (r : Run A) : Prop := exists e, r = Some (Throw e).

Lemma while_never_throws {S} (cond : S -> bool) (body : S -> Run S) :
  (forall s, cond s = true -> ~ throws (body s)) ->
  forall fuel s, ~ throws (while_ fuel cond body s).
Proof.
  intros Hbody. induction fuel as [|fuel IH]; intros s [e He]; [discriminate He|].
  cbn [while_] in He. destruct (cond s) eqn:Hcond; [|discriminate He].
  specialize (Hbody s Hcond).
  destruct (body s) as [[s'|e']|] eqn:Hs.
  - exact (IH s' (ex_intro _ e He)).
  - apply Hbody. exists e'. reflexivity.
  - discriminate He.
Qed.

Lemma for_var_never_throws {S} (init : S -> S) (cond : S -> bool) (update : S -> S)
    (body : S -> Run S) :
  (forall s, cond s = true -> ~ throws (body s)) ->
  forall fuel s, ~ throws (for_var fuel init cond update body s).
Proof.
  intros Hbody fuel s. unfold for_var. apply while_never_throws.
  intros s' Hcond [e He]. specialize (Hbody s' Hcond).
  destruct (body s') as [[s''|e']|]; try discriminate He.
  apply Hbody. exists e'. reflexivity.
Qed.

Lemma for_let_never_throws {S C} (init : C) (cond : S -> C -> bool) (update : C -> C)
    (body : S -> C -> Run S) :
  (forall s c, cond s c = true -> ~ throws (body s c)) ->
  forall fuel s, ~ throws (for_let fuel init cond update body s).
Proof.
  intros Hbody fuel s [e He]. unfold for_let in He.
  match type of He with
  | match ?loop with _ => _ end = _ => destruct loop as [[si|e']|] eqn:Hloop
  end; try discriminate He.
  refine (while_never_throws _ _ _ fuel (s, init) (ex_intro _ e' Hloop)).
  intros [s' c'] Hcond [e'' He'']. cbn [fst snd] in *.
  specialize (Hbody s' c' Hcond).
  destruct (body s' c') as [[s''|e3]|]; try discriminate He''.
  apply Hbody. exists e3. reflexivity.
Qed.

(** X16: neither [sumMatrix1] nor [sumMatrix] ever throws, on any matrix
    and with any fuel: a row is read only after its index was compared with
    the number of rows, also in [sumMatrix], where the index jumps.  The
    TypeError of [currentRow.length] on a missing row cannot happen. *)
Theorem sumMatrix_never_throws (fuel : nat) (matrix : list (list number)) (e : Exception) :
  LetDeclarations.sumMatrix1 fuel matrix <> Some (Throw e)
  /\ VarDeclaration.sumMatrix fuel matrix <> Some (Throw e).
Proof.
  split.
  - intros H. unfold LetDeclarations.sumMatrix1 in H.
    match type of H with
    | match ?loop with _ => _ end = _ => destruct loop as [[l|e']|] eqn:Hloop
    end; try discriminate H.
    refine (for_let_never_throws _ _ _ _ _ fuel _ (ex_intro _ e' Hloop)).
    intros l i Hi. apply Nat.ltb_lt in Hi.
    destruct (lookup_lt_is_Some_2 matrix i Hi) as [row Hrow].
    cbn [LetDeclarations.set_currentRow LetDeclarations.currentRow]. rewrite Hrow.
    apply for_let_never_throws. intros l' j _ [e'' He'']. discriminate He''.
  - intros H. unfold VarDeclaration.sumMatrix in H.
    match type of H with
    | match ?loop with _ => _ end = _ => destruct loop as [[l|e']|] eqn:Hloop
    end; try discriminate H.
    refine (for_var_never_throws _ _ _ _ _ fuel _ (ex_intro _ e' Hloop)).
    intros l Hi. apply Nat.ltb_lt in Hi.
    destruct (lookup_lt_is_Some_2 matrix _ Hi) as [row Hrow].
    cbn [VarDeclaration.set_currentRow VarDeclaration.currentRow]. rewrite Hrow.
    apply for_var_never_throws. intros l' _ [e'' He'']. discriminate He''.
Qed.

End InRange.
